(** * A shallow embedding of the graph workflow engine

    The development follows the Python sources
    - [app/engine/models.py]      (the pydantic data model),
    - [app/engine/registry.py]    ([ToolRegistry]),
    - [app/storage/memory_store.py] ([GraphStore], [RunStore]),
    - [app/engine/engine.py]      ([GraphEngine.run_graph], [_decide_next_node]),
    - [app/main.py]               (the mapping of exceptions to HTTP statuses).

    Python objects that are mutated in place (the [CodeReviewState] instance an
    operation receives, and the lists and dicts it holds) live in an explicit
    heap; exceptions are an error type; the [while] loop of [run_graph] is a
    fixpoint over a bound on the number of loop bodies executed. *)

From Stdlib Require Import ZArith Floats.
From stdpp Require Import gmap strings list pretty.

Set Warnings "-inexact-float,-register-all".
Local Open Scope string_scope.
Local Open Scope Z_scope.

(** ** Exceptions and results *)

(** The exception classes that the modelled code raises or lets through.
    [KeyError] carries its argument; [Exception] stands for any other error
    raised inside an operation. *)
Inductive exn : Type :=
| KeyError (arg : string)
| TypeError (msg : string)
| AttributeError (msg : string)
| ValidationError (msg : string)
| Exception (msg : string).

Inductive exn_class : Type :=
| KeyErrorClass | TypeErrorClass | AttributeErrorClass | ValidationErrorClass
| ExceptionClass.

Definition class_of (e : exn) : exn_class :=
  match e with
  | KeyError _ => KeyErrorClass
  | TypeError _ => TypeErrorClass
  | AttributeError _ => AttributeErrorClass
  | ValidationError _ => ValidationErrorClass
  | Exception _ => ExceptionClass
  end.

Inductive result (A : Type) : Type :=
| Ok (a : A)
| Raise (e : exn).
Arguments Ok {A} a.
Arguments Raise {A} e.

(** Exceptions propagate: [x ← r; k] runs [k] on the value of [r], or stops
    at the exception [r] raised. *)
#[global]
Instance result_bind : MBind result := fun A B k r =>
  match r with
  | Ok a => k a
  | Raise e => Raise e
  end.

(** ** Data model ([models.py]) *)

Definition loc := nat.
Bind Scope nat_scope with loc.

(** Values as [.dict()] returns them and as an issue record holds them under
    the type [Any]: JSON data, held by value, or a reference to a mutable
    object of some other class. *)
Inductive data : Type :=
| DNone
| DBool (b : bool)
| DInt (z : Z)
| DFloat (f : float)
| DStr (s : string)
| DList (xs : list data)
| DDict (kvs : list (string * data))
| DObj (l : loc).

(** [CodeReviewState]: scalar fields are stored in the instance, container
    fields are references to mutable list and dict objects. *)
Record CodeReviewState : Type := mkState {
  code : string;
  functions : loc;          (* List[str] *)
  complexity : loc;         (* Dict[str, int] *)
  issues : loc;             (* List[Dict[str, Any]] *)
  suggestions : loc;        (* List[str] *)
  quality_score : float;
  threshold : float;
  iteration : Z
}.

(** The heap of the objects reachable from workflow states, one total store
    per class of object; [objects] gives the attribute values of the objects
    of other classes. *)
Record Heap : Type := mkHeap {
  states : loc -> CodeReviewState;
  str_lists : loc -> list string;
  int_dicts : loc -> list (string * Z);
  dict_lists : loc -> list loc;
  any_dicts : loc -> list (string * data);
  objects : loc -> list (string * data)
}.

Definition upd {A : Type} (m : loc -> A) (l : loc) (a : A) : loc -> A :=
  fun l' => if Nat.eqb l' l then a else m l'.

Definition set_state (h : Heap) (l : loc) (s : CodeReviewState) : Heap :=
  mkHeap (upd (states h) l s) (str_lists h) (int_dicts h) (dict_lists h)
         (any_dicts h) (objects h).

Definition set_str_list (h : Heap) (l : loc) (xs : list string) : Heap :=
  mkHeap (states h) (upd (str_lists h) l xs) (int_dicts h) (dict_lists h)
         (any_dicts h) (objects h).

Definition set_object (h : Heap) (l : loc) (attrs : list (string * data))
  : Heap :=
  mkHeap (states h) (str_lists h) (int_dicts h) (dict_lists h) (any_dicts h)
         (upd (objects h) l attrs).

(** [NodeConfig].  [condition_op] is declared
    [Optional[Literal[">=", ">", "<=", "<", "=="]]]; it is kept as the string
    that [_decide_next_node] compares, and [literal_op] is the declared
    restriction. *)
Record NodeConfig : Type := mkNode {
  name : string;
  tool : string;
  next_node : option string;
  condition_key : option string;
  condition_op : option string;
  condition_value : option float;
  next_on_success : option string;
  next_on_failure : option string
}.

Definition condition_ops : list string := [">="; ">"; "<="; "<"; "=="].

Definition literal_op (cfg : NodeConfig) : Prop :=
  match condition_op cfg with
  | None => True
  | Some op => op ∈ condition_ops
  end.

Record Graph : Type := mkGraph {
  id : string;
  start_node : string;
  nodes : gmap string NodeConfig
}.

Record ExecutionLogEntry : Type := mkEntry {
  node : string;
  timestamp : Z;
  state_snapshot : list (string * data)
}.

Record GraphRun : Type := mkRun {
  run_id : string;
  graph_id : string;
  current_node : option string;
  state : loc;
  log : list ExecutionLogEntry;
  finished : bool
}.

(** ** Attribute access, [.dict()] and comparisons *)

(** The values an attribute of a [CodeReviewState] evaluates to. *)
Inductive value : Type :=
| VStr (s : string)
| VInt (z : Z)
| VFloat (f : float)
| VList (l : loc)
| VDict (l : loc).

(** [getattr(state, key)] on the declared fields.  A name that is not a field
    gives [None], an [AttributeError] at the call site (the methods and class
    attributes that a pydantic model also answers to are left out). *)
Definition getattr (h : Heap) (r : loc) (key : string) : option value :=
  let s := states h r in
  if String.eqb key "code" then Some (VStr (code s))
  else if String.eqb key "functions" then Some (VList (functions s))
  else if String.eqb key "complexity" then Some (VDict (complexity s))
  else if String.eqb key "issues" then Some (VList (issues s))
  else if String.eqb key "suggestions" then Some (VList (suggestions s))
  else if String.eqb key "quality_score" then Some (VFloat (quality_score s))
  else if String.eqb key "threshold" then Some (VFloat (threshold s))
  else if String.eqb key "iteration" then Some (VInt (iteration s))
  else None.

(** [state.dict()]: every list and dict met on the way is rebuilt from what
    it holds at the time of the call; a value of any other class is passed on
    as it is, so an object held in an issue record is the one mutable thing
    that the result shares with the heap. *)
Definition state_dict (h : Heap) (r : loc) : list (string * data) :=
  let s := states h r in
  [ ("code", DStr (code s));
    ("functions", DList (map DStr (str_lists h (functions s))));
    ("complexity",
      DDict (map (fun kv => (fst kv, DInt (snd kv))) (int_dicts h (complexity s))));
    ("issues",
      DList (map (fun l => DDict (any_dicts h l)) (dict_lists h (issues s))));
    ("suggestions", DList (map DStr (str_lists h (suggestions s))));
    ("quality_score", DFloat (quality_score s));
    ("threshold", DFloat (threshold s));
    ("iteration", DInt (iteration s)) ].

Definition of_comparison (c : comparison) : float_comparison :=
  match c with
  | Eq => FEq
  | Lt => FLt
  | Gt => FGt
  end.

(** Python compares an [int] with a [float] exactly (no rounding of the
    integer): the float is decoded to sign, mantissa and exponent. *)
Definition int_float_compare (z : Z) (f : float) : float_comparison :=
  match Prim2SF f with
  | S754_nan => FNotComparable
  | S754_infinity neg => if neg then FGt else FLt
  | S754_zero _ => of_comparison (z ?= 0)
  | S754_finite neg m e =>
      let v := if neg then Z.neg m else Z.pos m in
      if 0 <=? e then of_comparison (z ?= v * 2 ^ e)
      else of_comparison (z * 2 ^ (- e) ?= v)
  end.

Definition is_numeric (v : value) : bool :=
  match v with
  | VInt _ | VFloat _ => true
  | _ => false
  end.

(** [value OP target] for a float [target].  Floats compare as IEEE 754
    prescribes (every ordering with a NaN is false); ordering a string, list
    or dict against a float is a [TypeError]. *)
Definition unorderable {A : Type} : result A :=
  Raise (TypeError "ordering not supported between these types").

Definition py_ge (v : value) (target : float) : result bool :=
  match v with
  | VFloat f => Ok (PrimFloat.leb target f)
  | VInt z =>
      Ok match int_float_compare z target with FGt | FEq => true | _ => false end
  | _ => unorderable
  end.

Definition py_gt (v : value) (target : float) : result bool :=
  match v with
  | VFloat f => Ok (PrimFloat.ltb target f)
  | VInt z =>
      Ok match int_float_compare z target with FGt => true | _ => false end
  | _ => unorderable
  end.

Definition py_le (v : value) (target : float) : result bool :=
  match v with
  | VFloat f => Ok (PrimFloat.leb f target)
  | VInt z =>
      Ok match int_float_compare z target with FLt | FEq => true | _ => false end
  | _ => unorderable
  end.

Definition py_lt (v : value) (target : float) : result bool :=
  match v with
  | VFloat f => Ok (PrimFloat.ltb f target)
  | VInt z =>
      Ok match int_float_compare z target with FLt => true | _ => false end
  | _ => unorderable
  end.

(** [==] never raises: values of unrelated types are simply unequal. *)
Definition py_eq (v : value) (target : float) : result bool :=
  match v with
  | VFloat f => Ok (PrimFloat.eqb f target)
  | VInt z =>
      Ok match int_float_compare z target with FEq => true | _ => false end
  | _ => Ok false
  end.

(** Truth value of an [Optional[str]]: [None] and the empty string are false. *)
Definition truthy (o : option string) : bool :=
  match o with
  | Some (String _ _) => true
  | _ => false
  end.

(** [a or b] on [Optional[str]]. *)
Definition or_else (a b : option string) : option string :=
  if truthy a then a else b.

(** ** The branch decision ([engine.py], [_decide_next_node]) *)

(** The chain [if op == ">=" ... elif op == "=="] that sets [is_ok]; with any
    other operator [is_ok] keeps its initial value [False]. *)
Definition evaluate_condition (op : string) (value : value) (target : float)
  : result bool :=
  if String.eqb op ">=" then py_ge value target
  else if String.eqb op ">" then py_gt value target
  else if String.eqb op "<=" then py_le value target
  else if String.eqb op "<" then py_lt value target
  else if String.eqb op "==" then py_eq value target
  else Ok false.

Definition _decide_next_node (h : Heap) (node_cfg : NodeConfig) (st : loc)
  : result (option string) :=
  if negb (truthy (condition_key node_cfg)) then Ok (next_node node_cfg)
  else
    match getattr h st (default "" (condition_key node_cfg)) with
    | None => Raise (AttributeError "object has no such attribute")
    | Some value =>
        match condition_op node_cfg, condition_value node_cfg with
        | Some op, Some target =>
            is_ok ← evaluate_condition op value target;
            if is_ok : bool then Ok (next_on_success node_cfg)
            else Ok (or_else (next_on_failure node_cfg) (next_node node_cfg))
        | _, _ => Ok (next_node node_cfg)
        end
    end.

(** ** Operations, the platform and the world *)

(** What a call of an operation hands back: a [CodeReviewState] instance, or
    an object of another class, of which the engine only uses [.dict()]
    ([None] when the object has no such method). *)
Inductive returned : Type :=
| RetState (r : loc)
| RetObject (d : option (list (string * data))).

(** An operation receives the state object and may mutate anything in the
    heap before it returns or raises. *)
Inductive tool_outcome : Type :=
| ToolReturns (h : Heap) (v : returned)
| ToolRaises (h : Heap) (e : exn).

Definition ToolFunc : Type := Heap -> loc -> tool_outcome.

(** The objects handed to [ToolRegistry.register]. *)
Inductive pyobject : Type :=
| PyCallable (f : ToolFunc)
| PyData (d : data).

Definition callable (o : pyobject) : bool :=
  match o with
  | PyCallable _ => true
  | PyData _ => false
  end.

(** Library behaviour the code relies on: the [k]-th result of [uuid.uuid4()]
    as a string, the [k]-th reading of the clock, and the validating
    constructor of [CodeReviewState] applied to the entries of a dict. *)
Record Platform : Type := mkPlatform {
  uuid4 : nat -> string;
  utcnow : nat -> Z;
  CodeReviewState_init : Heap -> list (string * data) -> result (Heap * loc)
}.

(** The process state: the heap and the three module-level singletons
    [graph_store], [run_store] and [tool_registry], with the number of
    identifiers drawn and of clock readings taken so far. *)
Record World : Type := mkWorld {
  heap : Heap;
  graph_store : gmap string Graph;
  run_store : gmap string GraphRun;
  tool_registry : gmap string pyobject;
  uuid_draws : nat;
  clock_reads : nat
}.

Definition with_heap (w : World) (h : Heap) : World :=
  mkWorld h (graph_store w) (run_store w) (tool_registry w) (uuid_draws w)
          (clock_reads w).

Definition with_runs (w : World) (rs : gmap string GraphRun) : World :=
  mkWorld (heap w) (graph_store w) rs (tool_registry w) (uuid_draws w)
          (clock_reads w).

Definition with_tools (w : World) (ts : gmap string pyobject) : World :=
  mkWorld (heap w) (graph_store w) (run_store w) ts (uuid_draws w)
          (clock_reads w).

Definition with_graphs (w : World) (gs : gmap string Graph) : World :=
  mkWorld (heap w) gs (run_store w) (tool_registry w) (uuid_draws w)
          (clock_reads w).

(** ** [ToolRegistry] ([registry.py]) *)

Module ToolRegistry.

Definition register (w : World) (name : string) (func : pyobject)
  : World * result unit :=
  if negb (callable func) then (w, Raise (TypeError "Tool must be callable"))
  else (with_tools w (<[name := func]> (tool_registry w)), Ok tt).

Definition get (w : World) (name : string) : result pyobject :=
  match tool_registry w !! name with
  | None => Raise (KeyError ("Tool '" +:+ name +:+ "' not registered"))
  | Some func => Ok func
  end.

End ToolRegistry.

(** ** [GraphStore] and [RunStore] ([memory_store.py]) *)

Module GraphStore.

Definition save (w : World) (graph : Graph) : World :=
  with_graphs w (<[id graph := graph]> (graph_store w)).

Definition get (w : World) (graph_id : string) : result Graph :=
  match graph_store w !! graph_id with
  | None => Raise (KeyError ("Graph '" +:+ graph_id +:+ "' not found"))
  | Some graph => Ok graph
  end.

End GraphStore.

Module RunStore.

Definition now (P : Platform) (w : World) : World * Z :=
  (mkWorld (heap w) (graph_store w) (run_store w) (tool_registry w)
           (uuid_draws w) (S (clock_reads w)),
   utcnow P (clock_reads w)).

Definition create (P : Platform) (w : World) (graph_id : string) (st : loc)
  : World * result GraphRun :=
  match GraphStore.get w graph_id with
  | Raise e => (w, Raise e)
  | Ok graph =>
      let rid := uuid4 P (uuid_draws w) in
      let run := mkRun rid graph_id (Some (start_node graph)) st [] false in
      (mkWorld (heap w) (graph_store w) (<[rid := run]> (run_store w))
               (tool_registry w) (S (uuid_draws w)) (clock_reads w),
       Ok run)
  end.

Definition update (w : World) (run : GraphRun) : World :=
  with_runs w (<[run_id run := run]> (run_store w)).

Definition get (w : World) (rid : string) : result GraphRun :=
  match run_store w !! rid with
  | None => Raise (KeyError ("Run '" +:+ rid +:+ "' not found"))
  | Some run => Ok run
  end.

End RunStore.

(** ** [GraphEngine] ([engine.py]) *)

Record GraphEngine : Type := mkEngine {
  max_iterations : Z
}.

(** [GraphEngine(graph_store, run_store)]: the default bound is 20. *)
Definition default_engine : GraphEngine := mkEngine 20.

Definition set_current_node (run : GraphRun) (n : option string) : GraphRun :=
  mkRun (run_id run) (graph_id run) n (state run) (log run) (finished run).

Definition set_run_state (run : GraphRun) (st : loc) : GraphRun :=
  mkRun (run_id run) (graph_id run) (current_node run) st (log run)
        (finished run).

Definition append_log (run : GraphRun) (e : ExecutionLogEntry) : GraphRun :=
  mkRun (run_id run) (graph_id run) (current_node run) (state run)
        (log run ++ [e]) (finished run).

Definition set_finished (run : GraphRun) : GraphRun :=
  mkRun (run_id run) (graph_id run) (current_node run) (state run) (log run)
        true.

(** [new_state = tool(run.state)], followed by the conversion of a result
    that is not a [CodeReviewState]. *)
Definition call_tool (P : Platform) (func : pyobject) (h : Heap) (st : loc)
  : Heap * result loc :=
  match func with
  | PyData _ => (h, Raise (TypeError "object is not callable"))
  | PyCallable f =>
      match f h st with
      | ToolRaises h1 e => (h1, Raise e)
      | ToolReturns h1 (RetState r) => (h1, Ok r)
      | ToolReturns h1 (RetObject None) =>
          (h1, Raise (AttributeError "object has no attribute 'dict'"))
      | ToolReturns h1 (RetObject (Some d)) =>
          match CodeReviewState_init P h1 d with
          | Ok (h2, r) => (h2, Ok r)
          | Raise e => (h1, Raise e)
          end
      end
  end.

(** One execution of the body of the [while] loop of [run_graph], entered
    with [run.current_node = cur]. *)
Inductive body_result : Type :=
| Continue (w : World) (run : GraphRun)
| Break (w : World) (run : GraphRun)
| Propagate (w : World) (run : GraphRun) (e : exn).

Definition loop_body (P : Platform) (self : GraphEngine) (graph : Graph)
  (w : World) (run : GraphRun) (cur : string) : body_result :=
  if iteration (states (heap w) (state run)) >=? max_iterations self then
    Break w (set_finished run)
  else
    match nodes graph !! cur with
    | None => Propagate w run (KeyError cur)
    | Some node_cfg =>
        match ToolRegistry.get w (tool node_cfg) with
        | Raise e => Propagate w run e
        | Ok func =>
            match call_tool P func (heap w) (state run) with
            | (h1, Raise e) => Propagate (with_heap w h1) run e
            | (h1, Ok new_state) =>
                let run1 := set_run_state run new_state in
                let (w1, ts) := RunStore.now P (with_heap w h1) in
                let log_entry :=
                  mkEntry (name node_cfg) ts (state_dict h1 new_state) in
                let run2 := append_log run1 log_entry in
                match _decide_next_node h1 node_cfg new_state with
                | Raise e => Propagate w1 run2 e
                | Ok next =>
                    let run3 := set_current_node run2 next in
                    match next with
                    | None => Break w1 (set_finished run3)
                    | Some _ => Continue w1 run3
                    end
                end
            end
        end
    end.

(** The loop, with [fuel] bounding the number of bodies executed; [None]
    means the bound was reached with the loop still running. *)
Inductive loop_result : Type :=
| Done (w : World) (run : GraphRun)
| Aborted (w : World) (run : GraphRun) (e : exn).

Fixpoint run_loop (fuel : nat) (P : Platform) (self : GraphEngine)
  (graph : Graph) (w : World) (run : GraphRun) : option loop_result :=
  match current_node run with
  | None => Some (Done w run)
  | Some cur =>
      if finished run then Some (Done w run)
      else
        match fuel with
        | O => None
        | S fuel' =>
            match loop_body P self graph w run cur with
            | Continue w' run' => run_loop fuel' P self graph w' run'
            | Break w' run' => Some (Done w' run')
            | Propagate w' run' e => Some (Aborted w' run' e)
            end
        end
  end.

(** [run_graph].  The run store holds the very [GraphRun] object the loop
    mutates, so the stored record follows the run also when an exception
    leaves the loop before [update] is reached. *)
Definition run_graph (fuel : nat) (P : Platform) (self : GraphEngine)
  (w : World) (gid : string) (initial_state : loc)
  : option (World * result GraphRun) :=
  match GraphStore.get w gid with
  | Raise e => Some (w, Raise e)
  | Ok graph =>
      match RunStore.create P w gid initial_state with
      | (w1, Raise e) => Some (w1, Raise e)
      | (w1, Ok run) =>
          match run_loop fuel P self graph w1 run with
          | None => None
          | Some (Done w2 run') => Some (RunStore.update w2 run', Ok run')
          | Some (Aborted w2 run' e) =>
              Some (with_runs w2 (<[run_id run' := run']> (run_store w2)),
                    Raise e)
          end
      end
  end.

(** [main.py], [POST /graph/run]: a [KeyError] becomes a 404 response; any
    other exception is not caught and ends as a server error. *)
Definition http_status {A : Type} (r : result A) : Z :=
  match r with
  | Ok _ => 200
  | Raise (KeyError _) => 404
  | Raise _ => 500
  end.

(** * Vocabulary of the statements *)

(** ** The branch decision as the specification words it *)

(** [decideNext]: an unset [conditionField] gives [nextNode]; otherwise the
    field is compared with [conditionValue], a true comparison gives
    [nextOnSuccess], a false one gives [nextOnFailure] if set, else
    [nextNode]. *)
Definition decideNext_spec (h : Heap) (cfg : NodeConfig) (st : loc)
  : option string :=
  match condition_key cfg with
  | None => next_node cfg
  | Some field =>
      let test :=
        match getattr h st field, condition_op cfg, condition_value cfg with
        | Some v, Some op, Some target =>
            match evaluate_condition op v target with
            | Ok b => b
            | Raise _ => false
            end
        | _, _, _ => false
        end in
      if test then next_on_success cfg
      else match next_on_failure cfg with
           | Some n => Some n
           | None => next_node cfg
           end
  end.

(** Where the decision goes once the comparison has given [is_ok]:
    [next_on_success] when it is true, otherwise [next_on_failure] if that is
    a non-empty name, else [next_node]. *)
Definition route (cfg : NodeConfig) (is_ok : bool) : option string :=
  if is_ok then next_on_success cfg
  else if truthy (next_on_failure cfg) then next_on_failure cfg
  else next_node cfg.

(** ** Runs, loop bodies and chains *)

(** Every identifier stored in the run store was drawn from [uuid4]. *)
Definition run_ids_drawn (P : Platform) (w : World) : Prop :=
  forall rid, is_Some (run_store w !! rid) ->
    exists k, (k < uuid_draws w)%nat /\ uuid4 P k = rid.

Definition result_run (r : loop_result) : GraphRun :=
  match r with
  | Done _ run => run
  | Aborted _ run _ => run
  end.

Definition result_world (r : loop_result) : World :=
  match r with
  | Done w _ => w
  | Aborted w _ _ => w
  end.

Definition body_world (b : body_result) : World :=
  match b with
  | Continue w _ | Break w _ | Propagate w _ _ => w
  end.

Definition body_run (b : body_result) : GraphRun :=
  match b with
  | Continue _ run | Break _ run | Propagate _ run _ => run
  end.

(** The world after an operation left the heap [h1] and the clock was read
    for the log entry. *)
Definition after_node (w : World) (h1 : Heap) : World :=
  mkWorld h1 (graph_store w) (run_store w) (tool_registry w) (uuid_draws w)
          (S (clock_reads w)).

(** The run after the operation of [cfg] returned the state [st1] in the heap
    [h1] and the entry was appended. *)
Definition logged (P : Platform) (w : World) (run : GraphRun)
  (cfg : NodeConfig) (h1 : Heap) (st1 : loc) : GraphRun :=
  append_log (set_run_state run st1)
    (mkEntry (name cfg) (utcnow P (clock_reads w)) (state_dict h1 st1)).

(** An executed node: the body found [cfg] and its operation, the operation
    yielded the state [st1] in the heap [h1]. *)
Definition executed (P : Platform) (self : GraphEngine) (graph : Graph)
  (w : World) (run : GraphRun) (cur : string) (cfg : NodeConfig) (h1 : Heap)
  (st1 : loc) : Prop :=
  iteration (states (heap w) (state run)) < max_iterations self /\
  nodes graph !! cur = Some cfg /\
  exists func,
    tool_registry w !! tool cfg = Some func /\
    call_tool P func (heap w) (state run) = (h1, Ok st1).

(** An unconditional edge from a node to itself. *)
Definition self_loop (graph : Graph) (n : string) (cfg : NodeConfig) : Prop :=
  nodes graph !! n = Some cfg /\
  condition_key cfg = None /\
  next_node cfg = Some n.

(** The operation returns a [CodeReviewState] whose [iteration] is one more
    than that of the state it received. *)
Definition increments_iteration (f : ToolFunc) : Prop :=
  forall h st, exists h' st',
    f h st = ToolReturns h' (RetState st') /\
    iteration (states h' st') = iteration (states h st) + 1.

(** The operation returns a [CodeReviewState] with the [iteration] of the
    state it received. *)
Definition keeps_iteration (f : ToolFunc) : Prop :=
  forall h st, exists h' st',
    f h st = ToolReturns h' (RetState st') /\
    iteration (states h' st') = iteration (states h st).

(** Whenever a call of the registered object yields a state, that state has a
    larger [iteration] than the one passed in. *)
Definition raises_iteration (P : Platform) (func : pyobject) : Prop :=
  forall h st h' st',
    call_tool P func h st = (h', Ok st') ->
    iteration (states h st) < iteration (states h' st').

(** [run_graph] comes to an end (with a run or with an exception) within some
    number of loop bodies. *)
Definition terminates (P : Platform) (self : GraphEngine) (w : World)
  (gid : string) (st : loc) : Prop :=
  exists fuel, is_Some (run_graph fuel P self w gid st).





(** ** Reading a logged snapshot *)

(** The objects of other classes that a value refers to. *)
Fixpoint data_objects (d : data) : list loc :=
  match d with
  | DObj o => [o]
  | DList xs => flat_map data_objects xs
  | DDict kvs => flat_map (fun kv => data_objects (snd kv)) kvs
  | _ => []
  end.

(** What a reader finds in a value while the heap is [h]: JSON data as it
    is, and for an object of another class the attribute values that the
    object has in [h]. *)
Fixpoint read (h : Heap) (d : data) : data :=
  match d with
  | DObj o => DDict (objects h o)
  | DList xs => DList (map (read h) xs)
  | DDict kvs => DDict (map (fun kv => (fst kv, read h (snd kv))) kvs)
  | _ => d
  end.

(** The issue records of the state hold JSON data only. *)
Definition json_issues (h : Heap) (st : loc) : Prop :=
  forall l k v,
    l ∈ dict_lists h (issues (states h st)) ->
    (k, v) ∈ any_dicts h l ->
    data_objects v = [].

(** * Concrete states, nodes, graphs and operations *)

Definition blank_state : CodeReviewState :=
  mkState "" 0 0 0 0 0%float 0.8%float 0.

Definition blank_heap : Heap :=
  mkHeap (fun _ => blank_state) (fun _ => []) (fun _ => []) (fun _ => [])
         (fun _ => []) (fun _ => []).

(** A heap whose state object 0 has the given quality score. *)
Definition heap_with_quality (q : float) : Heap :=
  set_state blank_heap 0%nat (mkState "x = 1" 0 0 0 0 q 0.8%float 0).

(** A node that tests [field >= 0.8]. *)
Definition threshold_node (field : string) (on_failure : option string)
  : NodeConfig :=
  mkNode "score" "suggest_improvements" (Some "retry")
         (Some field) (Some ">=") (Some 0.8%float) (Some "done") on_failure.

(** A node that tests [field OP target], with both routes named. *)
Definition condition_node (field op : string) (target : float) : NodeConfig :=
  mkNode "score" "suggest_improvements" (Some "retry")
         (Some field) (Some op) (Some target) (Some "done") (Some "again").

(** A node whose condition names a field but no operator and no value. *)
Definition incomplete_node : NodeConfig :=
  mkNode "check" "keep" None (Some "quality_score") None None (Some "done")
         (Some "retry").

(** A node whose operator is not one of the five. *)
Definition unknown_op_node (on_failure : option string) : NodeConfig :=
  mkNode "check" "keep" None (Some "quality_score") (Some "!=")
         (Some 0.8%float) (Some "done") on_failure.

(** A node with an edge to a node that the graph does not have, and a node
    whose operation nobody registered. *)
Definition dangling_node : NodeConfig :=
  mkNode "a" "keep" (Some "ghost") None None None None None.

Definition unregistered_node : NodeConfig :=
  mkNode "a" "nope" None None None None None None.

(** The platform of the examples: identifiers are the decimal numerals of the
    draw, the clock shows the number of the reading, and the validating
    constructor accepts nothing. *)
Definition example_platform : Platform :=
  mkPlatform pretty (fun k => Z.of_nat k)
             (fun _ _ => Raise (ValidationError "field required")).

Definition example_world (gs : gmap string Graph) (ts : gmap string pyobject)
  : World :=
  mkWorld blank_heap gs ∅ ts 0 0.

(** A one-node graph stored under its identifier. *)
Definition single_node_graph (gid : string) (cfg : NodeConfig) : Graph :=
  mkGraph gid (name cfg) {[ name cfg := cfg ]}.

Definition graphs_of (g : Graph) : gmap string Graph := {[ id g := g ]}.

(** An operation that returns its argument untouched. *)
Definition keep_state : ToolFunc := fun h st => ToolReturns h (RetState st).

(** An operation written like those of [code_review.py]: it assigns to a field
    of the state object it was given and returns that object. *)
Definition bump_iteration : ToolFunc := fun h st =>
  let s := states h st in
  ToolReturns
    (set_state h st
       (mkState (code s) (functions s) (complexity s) (issues s)
                (suggestions s) (quality_score s) (threshold s)
                (iteration s + 1)))
    (RetState st).

(** An operation that mutates in place: it appends to the list object of
    [state.functions], adds one to [state.iteration] and returns the object
    it was given. *)
Definition record_function : ToolFunc := fun h st =>
  let s := states h st in
  let h1 :=
    set_str_list h (functions s) (str_lists h (functions s) ++ ["f"]) in
  ToolReturns
    (set_state h1 st
       (mkState (code s) (functions s) (complexity s) (issues s)
                (suggestions s) (quality_score s) (threshold s)
                (iteration s + 1)))
    (RetState st).

(** An operation that mutates, in place, the object held by the first entry
    of the first issue record: it stores the number of the visit in the
    attribute [visits]; then it adds one to [state.iteration] and returns the
    state object it was given. *)
Definition count_visit : ToolFunc := fun h st =>
  let s := states h st in
  match dict_lists h (issues s) with
  | record :: _ =>
      match any_dicts h record with
      | (_, DObj o) :: _ =>
          let h1 := set_object h o [("visits", DInt (iteration s + 1))] in
          ToolReturns
            (set_state h1 st
               (mkState (code s) (functions s) (complexity s) (issues s)
                        (suggestions s) (quality_score s) (threshold s)
                        (iteration s + 1)))
            (RetState st)
      | _ => ToolRaises h (AttributeError "visits")
      end
  | [] => ToolRaises h (Exception "list index out of range")
  end.

Definition keep_tools : gmap string pyobject :=
  {[ "keep" := PyCallable keep_state ]}.

(** A one-node graph whose node loops back to itself. *)
Definition loop_node (t : string) : NodeConfig :=
  mkNode "step" t (Some "step") None None None None None.

Definition loop_world (t : string) (func : pyobject) : World :=
  example_world (graphs_of (single_node_graph "loop" (loop_node t)))
                {[ t := func ]}.

(** A heap in which the state object 0 refers to four distinct containers
    (the lists [functions] and [suggestions] are the string lists 0 and 1);
    its [issues] list holds the one record given, and object 0 has been
    visited no time yet. *)
Definition review_heap (record : list (string * data)) : Heap :=
  mkHeap (upd (fun _ => blank_state) 0
            (mkState "x = 1" 0 0 0 1 0%float 0.8%float 0))
         (fun _ => []) (fun _ => [])
         (upd (fun _ => []) 0 [0%nat])
         (upd (fun _ => []) 0 record)
         (upd (fun _ => []) 0 [("visits", DInt 0)]).

(** The self-loop on the operation [func], started on [review_heap]. *)
Definition review_world (t : string) (func : pyobject)
  (record : list (string * data)) : World :=
  with_heap (loop_world t func) (review_heap record).

(** An issue record as [detect_basic_issues] builds them, and a run that
    stands on the node of the self-loop with an empty log. *)
Definition lint_record : list (string * data) :=
  [("line", DInt 3); ("message", DStr "unused import")].

Definition review_run : GraphRun := mkRun "0" "loop" (Some "step") 0 [] false.

(** A two-node linear graph [first -> second]. *)
Definition two_step_graph : Graph :=
  mkGraph "pair" "first"
    {[ "first" := mkNode "first" "keep" (Some "second") None None None None None;
       "second" := mkNode "second" "keep" None None None None None None ]}.

(** The graph stored by [create_default_code_review_graph]
    ([workflows/code_review.py]). *)
Definition suggest_node : NodeConfig :=
  mkNode "suggest" "suggest_improvements" None
         (Some "quality_score") (Some ">=") (Some 0.8%float) None None.

Definition code_review_default : Graph :=
  mkGraph "code_review_default" "extract"
    {[ "extract" :=
         mkNode "extract" "extract_functions" (Some "complexity")
                None None None None None;
       "complexity" :=
         mkNode "complexity" "check_complexity" (Some "issues")
                None None None None None;
       "issues" :=
         mkNode "issues" "detect_basic_issues" (Some "suggest")
                None None None None None;
       "suggest" := suggest_node ]}.

(** Stand-ins for the four registered operations: the analyses leave the
    state alone and [suggest_improvements] adds one to [iteration]. *)
Definition code_review_tools : gmap string pyobject :=
  {[ "extract_functions" := PyCallable keep_state;
     "check_complexity" := PyCallable keep_state;
     "detect_basic_issues" := PyCallable keep_state;
     "suggest_improvements" := PyCallable bump_iteration ]}.

(** * The workflow set-up and the handlers of [main.py] *)

(** ** [workflows/code_review.py]: registration and the default graph *)

(** The four operations of the code review workflow.  They parse and lint
    Python source; only how they are registered and wired is modelled. *)
Record CodeReviewTools : Type := mkTools {
  extract_functions : ToolFunc;
  check_complexity : ToolFunc;
  detect_basic_issues : ToolFunc;
  suggest_improvements : ToolFunc
}.

Definition register_code_review_tools (T : CodeReviewTools) (w : World)
  : World :=
  let w1 := (ToolRegistry.register w "extract_functions"
               (PyCallable (extract_functions T))).1 in
  let w2 := (ToolRegistry.register w1 "check_complexity"
               (PyCallable (check_complexity T))).1 in
  let w3 := (ToolRegistry.register w2 "detect_basic_issues"
               (PyCallable (detect_basic_issues T))).1 in
  (ToolRegistry.register w3 "suggest_improvements"
     (PyCallable (suggest_improvements T))).1.

Definition create_default_code_review_graph (w : World) : World :=
  GraphStore.save w code_review_default.

(** The module-level statements of [main.py] that run at import. *)
Definition startup (T : CodeReviewTools) (w : World) : World :=
  create_default_code_review_graph (register_code_review_tools T w).

(** ** [main.py]: the HTTP handlers *)

Module GraphRunResponse.

Record t : Type := mk {
  run_id : string;
  graph_id : string;
  finished : bool;
  current_node : option string;
  final_state : list (string * data);
  log : list ExecutionLogEntry
}.

End GraphRunResponse.

(** What a handler ends with: a response body, the [HTTPException] it raised
    (with the exception whose text is the detail), or an exception it did
    not catch. *)
Inductive http_reply (A : Type) : Type :=
| Body (a : A)
| HTTPException (status_code : Z) (cause : exn)
| Unhandled (e : exn).
Arguments Body {A} a.
Arguments HTTPException {A} status_code cause.
Arguments Unhandled {A} e.

(** [GraphRunResponse(run_id=run.run_id, ..., final_state=run.state,
    log=run.log)], the state being serialised as it is when the handler
    returns. *)
Definition response_of (w : World) (run : GraphRun) : GraphRunResponse.t :=
  GraphRunResponse.mk (run_id run) (graph_id run) (finished run)
    (current_node run) (state_dict (heap w) (state run)) (log run).

Module Api.

(** [POST /graph/create]. *)
Definition create_graph (w : World) (graph : Graph) : World * string :=
  (GraphStore.save w graph, id graph).

(** [POST /graph/run], on the module-level engine. *)
Definition run_graph (fuel : nat) (P : Platform) (w : World)
  (request_graph_id : string) (request_state : loc)
  : option (World * http_reply GraphRunResponse.t) :=
  match run_graph fuel P default_engine w request_graph_id request_state with
  | None => None
  | Some (w', Raise (KeyError arg)) =>
      Some (w', HTTPException 404 (KeyError arg))
  | Some (w', Raise e) => Some (w', Unhandled e)
  | Some (w', Ok run) => Some (w', Body (response_of w' run))
  end.

(** [GET /graph/state/{run_id}]. *)
Definition get_graph_state (w : World) (rid : string)
  : http_reply GraphRunResponse.t :=
  match RunStore.get w rid with
  | Raise (KeyError arg) => HTTPException 404 (KeyError arg)
  | Raise e => Unhandled e
  | Ok run => Body (response_of w run)
  end.

End Api.

(** ** [main.py]: the WebSocket handler *)

(** [d.get(key)] on a JSON object. *)
Fixpoint dict_get (kvs : list (string * data)) (key : string) : option data :=
  match kvs with
  | [] => None
  | (k, v) :: rest => if String.eqb k key then Some v else dict_get rest key
  end.

(** The truth value of a value ([if not code_input]); an object of a class
    without [__bool__] or [__len__] is true. *)
Definition data_truthy (d : data) : bool :=
  match d with
  | DNone => false
  | DBool b => b
  | DInt z => negb (z =? 0)
  | DFloat f => negb (PrimFloat.eqb f 0)
  | DStr s => negb (String.eqb s "")
  | DList xs => match xs with [] => false | _ => true end
  | DDict kvs => match kvs with [] => false | _ => true end
  | DObj _ => true
  end.

(** The dict that the handler sends after a run. *)
Definition ws_response (w : World) (run : GraphRun) : list (string * data) :=
  let final_state := states (heap w) (state run) in
  let sent key := default DNone (dict_get (state_dict (heap w) (state run)) key) in
  let accepted :=
    PrimFloat.leb (threshold final_state) (quality_score final_state) in
  [ ("quality_score", DFloat (quality_score final_state));
    ("threshold", DFloat (threshold final_state));
    ("issues", sent "issues");
    ("suggestions", sent "suggestions");
    ("complexity", sent "complexity");
    ("functions", sent "functions");
    ("node", DStr (default "finished"
                     (or_else (current_node run) (Some "finished"))));
    ("iteration", DInt (iteration final_state));
    ("accepted", DBool accepted);
    ("message",
      DStr (if accepted then
              "Code accepted! Quality score meets threshold. (Iterations: "
              +:+ pretty (iteration final_state) +:+ ")"
            else
              "Quality score too low. Rejected. Looping... (Iteration "
              +:+ pretty (iteration final_state) +:+ ")")) ].

(** One turn of the [while True] loop of [websocket_endpoint]: the message
    received, with the session's [current_iteration], gives a reply and the
    new [current_iteration], or an exception that ends the handler. *)
Inductive ws_turn : Type :=
| WsSend (w : World) (current_iteration : Z) (reply : list (string * data))
| WsRaise (w : World) (e : exn).

Definition websocket_turn (fuel : nat) (P : Platform) (w : World)
  (current_iteration : Z) (message : data) : option ws_turn :=
  match message with
  | DDict data =>
      let code_input := default DNone (dict_get data "code") in
      if negb (data_truthy code_input) then
        Some (WsSend w current_iteration [("error", DStr "No code provided")])
      else
        let threshold := default (DFloat 0.8) (dict_get data "threshold") in
        match CodeReviewState_init P (heap w)
                [("code", code_input); ("threshold", threshold);
                 ("iteration", DInt current_iteration)] with
        | Raise e => Some (WsRaise w e)
        | Ok (h1, initial_state) =>
            match run_graph fuel P default_engine (with_heap w h1)
                    "code_review_default" initial_state with
            | None => None
            | Some (w1, Raise e) => Some (WsRaise w1 e)
            | Some (w1, Ok run) =>
                Some (WsSend w1 (iteration (states (heap w1) (state run)))
                        (ws_response w1 run))
            end
        end
  | _ => Some (WsRaise w (AttributeError "object has no attribute 'get'"))
  end.

(** The handler over the messages a client sends before it disconnects: the
    replies sent, the session's last [current_iteration], and the exception
    that ended the handler early, if any. *)
Fixpoint websocket_endpoint (fuel : nat) (P : Platform) (w : World)
  (current_iteration : Z) (messages : list data)
  : option (World * Z * list (list (string * data)) * option exn) :=
  match messages with
  | [] => Some (w, current_iteration, [], None)
  | message :: rest =>
      match websocket_turn fuel P w current_iteration message with
      | None => None
      | Some (WsRaise w1 e) => Some (w1, current_iteration, [], Some e)
      | Some (WsSend w1 it1 reply) =>
          match websocket_endpoint fuel P w1 it1 rest with
          | None => None
          | Some (w2, it2, replies, exit) => Some (w2, it2, reply :: replies, exit)
          end
      end
  end.

(** * Vocabulary of the further properties *)

(** Every object in the registry is callable. *)
Definition registry_callable (w : World) : Prop :=
  forall name func, tool_registry w !! name = Some func -> callable func = true.

(** The clock never runs backwards. *)
Definition clock_monotone (P : Platform) : Prop :=
  forall i j, (i <= j)%nat -> utcnow P i <= utcnow P j.

(** No call of a registered object, and no construction of a state that
    completes it, takes a heap that satisfies [Inv] to one that does not. *)
Definition operations_preserve (P : Platform) (w : World) (Inv : Heap -> Prop)
  : Prop :=
  forall name func h st h' r,
    tool_registry w !! name = Some func ->
    call_tool P func h st = (h', r) ->
    Inv h -> Inv h'.

(** What the loop of [run_graph] keeps of the world [w0] and the run [run0] it
    started from: the stores, the registry and the identifiers are those of
    the start, and the log is the log of the start followed by one entry per
    clock reading taken since, stamped with that reading. *)
Definition bookkeeping (P : Platform) (w0 : World) (run0 : GraphRun)
  (w : World) (run : GraphRun) : Prop :=
  graph_store w = graph_store w0 /\
  tool_registry w = tool_registry w0 /\
  run_store w = run_store w0 /\
  uuid_draws w = uuid_draws w0 /\
  run_id run = run_id run0 /\
  graph_id run = graph_id run0 /\
  exists new,
    log run = (log run0 ++ new)%list /\
    clock_reads w = (clock_reads w0 + length new)%nat /\
    timestamp <$> new = utcnow P <$> seq (clock_reads w0) (length new).

(** The run that [RunStore.create] builds for a known graph, and the world it
    leaves. *)
Definition new_run (P : Platform) (w : World) (gid : string) (graph : Graph)
  (st : loc) : GraphRun :=
  mkRun (uuid4 P (uuid_draws w)) gid (Some (start_node graph)) st [] false.

Definition world_with_run (w : World) (run : GraphRun) : World :=
  mkWorld (heap w) (graph_store w) (<[run_id run := run]> (run_store w))
          (tool_registry w) (S (uuid_draws w)) (clock_reads w).

(** The graph and the operations of the workflow are in place. *)
Definition code_review_ready (T : CodeReviewTools) (w : World) : Prop :=
  graph_store w !! "code_review_default" = Some code_review_default /\
  tool_registry w !! "extract_functions" = Some (PyCallable (extract_functions T)) /\
  tool_registry w !! "check_complexity" = Some (PyCallable (check_complexity T)) /\
  tool_registry w !! "detect_basic_issues"
    = Some (PyCallable (detect_basic_issues T)) /\
  tool_registry w !! "suggest_improvements"
    = Some (PyCallable (suggest_improvements T)).

(** The constructor gives the state the [iteration] it was passed. *)
Definition init_sets_iteration (P : Platform) : Prop :=
  forall h d h' st z,
    CodeReviewState_init P h d = Ok (h', st) ->
    dict_get d "iteration" = Some (DInt z) ->
    iteration (states h' st) = z.

(** A reply to a message without code, or a reply after a run that executed
    no node of the default graph at session iteration [it]. *)
Definition idle_reply (it : Z) (reply : list (string * data)) : Prop :=
  reply = [("error", DStr "No code provided")] \/
  dict_get reply "iteration" = Some (DInt it) /\
  dict_get reply "node" = Some (DStr "extract").

(** A validating constructor for the examples: it needs a string under
    [code], takes [threshold] and [iteration] when given as a float and an
    int, and builds the state as object 1 with empty containers. *)
Definition example_init (h : Heap) (d : list (string * data))
  : result (Heap * loc) :=
  match dict_get d "code" with
  | Some (DStr c) =>
      let t := match dict_get d "threshold" with
               | Some (DFloat f) => f
               | _ => 0.8%float
               end in
      let i := match dict_get d "iteration" with
               | Some (DInt z) => z
               | _ => 0
               end in
      Ok (set_state h 1 (mkState c 0 0 0 0 0%float t i), 1%nat)
  | _ => Raise (ValidationError "code: str type expected")
  end.

Definition session_platform : Platform :=
  mkPlatform pretty (fun k => Z.of_nat k) example_init.

(** An operation that fails on a dictionary lookup of its own. *)
Definition failing_lookup : ToolFunc :=
  fun h _ => ToolRaises h (KeyError "line").

(** Stand-ins for the four operations, as in [code_review_tools]. *)
Definition example_tools : CodeReviewTools :=
  mkTools keep_state keep_state keep_state bump_iteration.

(** The last log entry shows the state as it is in the heap; while the log
    is empty, the state is the object [st0] and the heap is still [h0]. *)
Definition log_up_to_date (h0 : Heap) (st0 : loc) (w : World) (run : GraphRun)
  : Prop :=
  match last (log run) with
  | Some entry => state_snapshot entry = state_dict (heap w) (state run)
  | None => state run = st0 /\ heap w = h0
  end.

(** * Properties *)

(** ** Examples *)

Example int_float_compare_examples :
  int_float_compare 1 0.8 = FGt /\
  int_float_compare 0 0.8 = FLt /\
  int_float_compare 1 1 = FEq /\
  int_float_compare (2 ^ 53 + 1) 9007199254740992 = FGt /\
  int_float_compare (-1) (-0.5) = FLt /\
  int_float_compare 5 nan = FNotComparable /\
  int_float_compare 5 infinity = FLt.
Proof. repeat split. Qed.

Example evaluate_condition_examples :
  evaluate_condition ">=" (VFloat 0.8) 0.8 = Ok true /\
  evaluate_condition ">" (VFloat 0.8) 0.8 = Ok false /\
  evaluate_condition "<" (VInt 19) 20 = Ok true /\
  evaluate_condition "==" (VInt 20) 20 = Ok true /\
  evaluate_condition "==" (VStr "x") 20 = Ok false /\
  evaluate_condition "<=" (VStr "x") 20 = unorderable /\
  evaluate_condition ">=" (VFloat nan) 0.8 = Ok false.
Proof. repeat split. Qed.

(** The last node of the default graph ends the run whatever the score. *)
Example suggest_node_ends_the_run h st :
  _decide_next_node h suggest_node st = Ok None.
Proof.
  unfold _decide_next_node, suggest_node. cbn.
  destruct (PrimFloat.leb 0.8 (quality_score (states h st))); reflexivity.
Qed.

Example code_review_default_run :
  match run_graph 4 example_platform default_engine
          (example_world (graphs_of code_review_default) code_review_tools)
          "code_review_default" 0 with
  | Some (w', Ok run) =>
      node <$> log run = ["extract"; "complexity"; "issues"; "suggest"] /\
      finished run = true /\
      current_node run = None /\
      iteration (states (heap w') (state run)) = 1
  | _ => False
  end.
Proof. vm_compute. repeat split. Qed.

(** ** C1: the branch decision *)

Lemma evaluate_condition_numeric op v target :
  is_numeric v = true -> exists b, evaluate_condition op v target = Ok b.
Proof.
  intros Hv. unfold evaluate_condition.
  destruct v; try discriminate;
    repeat (case String.eqb; [eexists; reflexivity|]); eexists; reflexivity.
Qed.

(** What the five operators mean on a float field. *)
Lemma evaluate_condition_float f target :
  evaluate_condition ">=" (VFloat f) target = Ok (PrimFloat.leb target f) /\
  evaluate_condition ">" (VFloat f) target = Ok (PrimFloat.ltb target f) /\
  evaluate_condition "<=" (VFloat f) target = Ok (PrimFloat.leb f target) /\
  evaluate_condition "<" (VFloat f) target = Ok (PrimFloat.ltb f target) /\
  evaluate_condition "==" (VFloat f) target = Ok (PrimFloat.eqb f target).
Proof. repeat split. Qed.

Lemma getattr_truthy h st field v :
  getattr h st field = Some v -> truthy (Some field) = true.
Proof. destruct field; [discriminate | reflexivity]. Qed.

Lemma decide_next_node_linear h cfg st :
  condition_key cfg = None -> _decide_next_node h cfg st = Ok (next_node cfg).
Proof. intros Hk. unfold _decide_next_node. rewrite Hk. reflexivity. Qed.

(** With field, operator and value in place, the decision is the route of
    what the comparison gives, and the error of the comparison if it raises. *)
Lemma decide_next_node_compares h cfg st field v op target :
  condition_key cfg = Some field ->
  getattr h st field = Some v ->
  condition_op cfg = Some op ->
  condition_value cfg = Some target ->
  _decide_next_node h cfg st =
    match evaluate_condition op v target with
    | Ok is_ok => Ok (route cfg is_ok)
    | Raise e => Raise e
    end.
Proof.
  intros Hk Hget Hop Hval. unfold _decide_next_node.
  rewrite Hk, (getattr_truthy _ _ _ _ Hget). simpl.
  rewrite Hget, Hop, Hval.
  destruct (evaluate_condition op v target) as [[|]|e]; reflexivity.
Qed.

(** C1 (as amended): [_decide_next_node] returns [next_node] when
    [condition_key] is unset.  When [condition_key] names a numeric field of
    the state and [condition_value] is set, each of the five operators
    compares the field value with [condition_value]: a float field as IEEE
    754 orders floats, an int field by its exact value.  The result is
    [next_on_success] when the comparison is true, and otherwise
    [next_on_failure] if that is a non-empty name, else [next_node].  For [>=]
    against 0.8, the field values 0.8 and 0.81 give [next_on_success] and 0.79
    gives the failure route. *)
Theorem decide_next_node_routes (h : Heap) (cfg : NodeConfig) (st : loc) :
  (condition_key cfg = None ->
   _decide_next_node h cfg st = Ok (next_node cfg)) /\
  (forall field f target,
     condition_key cfg = Some field ->
     getattr h st field = Some (VFloat f) ->
     condition_value cfg = Some target ->
     (condition_op cfg = Some ">=" ->
      _decide_next_node h cfg st = Ok (route cfg (PrimFloat.leb target f))) /\
     (condition_op cfg = Some ">" ->
      _decide_next_node h cfg st = Ok (route cfg (PrimFloat.ltb target f))) /\
     (condition_op cfg = Some "<=" ->
      _decide_next_node h cfg st = Ok (route cfg (PrimFloat.leb f target))) /\
     (condition_op cfg = Some "<" ->
      _decide_next_node h cfg st = Ok (route cfg (PrimFloat.ltb f target))) /\
     (condition_op cfg = Some "==" ->
      _decide_next_node h cfg st = Ok (route cfg (PrimFloat.eqb f target)))) /\
  (forall field z target,
     condition_key cfg = Some field ->
     getattr h st field = Some (VInt z) ->
     condition_value cfg = Some target ->
     (condition_op cfg = Some ">=" ->
      _decide_next_node h cfg st =
        Ok (route cfg match int_float_compare z target with
                      | FGt | FEq => true
                      | _ => false
                      end)) /\
     (condition_op cfg = Some ">" ->
      _decide_next_node h cfg st =
        Ok (route cfg match int_float_compare z target with
                      | FGt => true
                      | _ => false
                      end)) /\
     (condition_op cfg = Some "<=" ->
      _decide_next_node h cfg st =
        Ok (route cfg match int_float_compare z target with
                      | FLt | FEq => true
                      | _ => false
                      end)) /\
     (condition_op cfg = Some "<" ->
      _decide_next_node h cfg st =
        Ok (route cfg match int_float_compare z target with
                      | FLt => true
                      | _ => false
                      end)) /\
     (condition_op cfg = Some "==" ->
      _decide_next_node h cfg st =
        Ok (route cfg match int_float_compare z target with
                      | FEq => true
                      | _ => false
                      end))) /\
  (forall field q,
     condition_key cfg = Some field ->
     getattr h st field = Some (VFloat q) ->
     condition_op cfg = Some ">=" ->
     condition_value cfg = Some 0.8%float ->
     (q = 0.8%float \/ q = 0.81%float ->
      _decide_next_node h cfg st = Ok (next_on_success cfg)) /\
     (q = 0.79%float ->
      _decide_next_node h cfg st =
        Ok (if truthy (next_on_failure cfg) then next_on_failure cfg
            else next_node cfg))).
Proof.
  split; [|split; [|split]].
  - intros Hk. unfold _decide_next_node. rewrite Hk. reflexivity.
  - intros field f target Hk Hget Hval.
    repeat match goal with |- _ /\ _ => split end;
      intros Hop;
      rewrite (decide_next_node_compares _ _ _ _ _ _ _ Hk Hget Hop Hval);
      reflexivity.
  - intros field z target Hk Hget Hval.
    repeat match goal with |- _ /\ _ => split end;
      intros Hop;
      rewrite (decide_next_node_compares _ _ _ _ _ _ _ Hk Hget Hop Hval);
      reflexivity.
  - intros field q Hk Hget Hop Hval.
    rewrite (decide_next_node_compares _ _ _ _ _ _ _ Hk Hget Hop Hval).
    split.
    + intros [-> | ->]; reflexivity.
    + intros ->. reflexivity.
Qed.

(** The examples of the claim, and each of the other operators at work: on
    the float field [quality_score] and on the int field [iteration]. *)
Lemma decide_next_node_routes_witness :
  (_decide_next_node (heap_with_quality 0.8)
     (threshold_node "quality_score" None) 0 = Ok (Some "done") /\
   _decide_next_node (heap_with_quality 0.81)
     (threshold_node "quality_score" (Some "again")) 0 = Ok (Some "done") /\
   _decide_next_node (heap_with_quality 0.79)
     (threshold_node "quality_score" (Some "again")) 0 = Ok (Some "again") /\
   _decide_next_node (heap_with_quality 0.79)
     (threshold_node "quality_score" None) 0 = Ok (Some "retry")) /\
  (_decide_next_node (heap_with_quality 0.8)
     (condition_node "quality_score" ">" 0.8) 0 = Ok (Some "again") /\
   _decide_next_node (heap_with_quality 0.8)
     (condition_node "quality_score" "<=" 0.8) 0 = Ok (Some "done") /\
   _decide_next_node (heap_with_quality 0.5)
     (condition_node "quality_score" "<" 0.8) 0 = Ok (Some "done") /\
   _decide_next_node (heap_with_quality 0.5)
     (condition_node "quality_score" "==" 0.8) 0 = Ok (Some "again")) /\
  (_decide_next_node (heap_with_quality 0.5)
     (condition_node "iteration" "<" 0.5) 0 = Ok (Some "done") /\
   _decide_next_node (heap_with_quality 0.5)
     (condition_node "iteration" ">=" 0.5) 0 = Ok (Some "again") /\
   _decide_next_node (heap_with_quality 0.5)
     (condition_node "iteration" "==" 0) 0 = Ok (Some "done")).
Proof.
  split; [|split].
  - split; [|split; [|split]].
    + destruct (decide_next_node_routes (heap_with_quality 0.8)
                  (threshold_node "quality_score" None) 0) as (_ & _ & _ & H).
      destruct (H "quality_score" 0.8%float eq_refl eq_refl eq_refl eq_refl)
        as [Hs _].
      exact (Hs (or_introl eq_refl)).
    + destruct (decide_next_node_routes (heap_with_quality 0.81)
                  (threshold_node "quality_score" (Some "again")) 0)
        as (_ & _ & _ & H).
      destruct (H "quality_score" 0.81%float eq_refl eq_refl eq_refl eq_refl)
        as [Hs _].
      exact (Hs (or_intror eq_refl)).
    + destruct (decide_next_node_routes (heap_with_quality 0.79)
                  (threshold_node "quality_score" (Some "again")) 0)
        as (_ & _ & _ & H).
      destruct (H "quality_score" 0.79%float eq_refl eq_refl eq_refl eq_refl)
        as [_ Hf].
      exact (Hf eq_refl).
    + destruct (decide_next_node_routes (heap_with_quality 0.79)
                  (threshold_node "quality_score" None) 0) as (_ & _ & _ & H).
      destruct (H "quality_score" 0.79%float eq_refl eq_refl eq_refl eq_refl)
        as [_ Hf].
      exact (Hf eq_refl).
  - split; [|split; [|split]].
    + destruct (decide_next_node_routes (heap_with_quality 0.8)
                  (condition_node "quality_score" ">" 0.8) 0) as (_ & H & _).
      destruct (H "quality_score" 0.8%float 0.8%float eq_refl eq_refl eq_refl)
        as (_ & Hgt & _).
      exact (Hgt eq_refl).
    + destruct (decide_next_node_routes (heap_with_quality 0.8)
                  (condition_node "quality_score" "<=" 0.8) 0) as (_ & H & _).
      destruct (H "quality_score" 0.8%float 0.8%float eq_refl eq_refl eq_refl)
        as (_ & _ & Hle & _).
      exact (Hle eq_refl).
    + destruct (decide_next_node_routes (heap_with_quality 0.5)
                  (condition_node "quality_score" "<" 0.8) 0) as (_ & H & _).
      destruct (H "quality_score" 0.5%float 0.8%float eq_refl eq_refl eq_refl)
        as (_ & _ & _ & Hlt & _).
      exact (Hlt eq_refl).
    + destruct (decide_next_node_routes (heap_with_quality 0.5)
                  (condition_node "quality_score" "==" 0.8) 0) as (_ & H & _).
      destruct (H "quality_score" 0.5%float 0.8%float eq_refl eq_refl eq_refl)
        as (_ & _ & _ & _ & Heq).
      exact (Heq eq_refl).
  - split; [|split].
    + destruct (decide_next_node_routes (heap_with_quality 0.5)
                  (condition_node "iteration" "<" 0.5) 0) as (_ & _ & H & _).
      destruct (H "iteration" 0 0.5%float eq_refl eq_refl eq_refl)
        as (_ & _ & _ & Hlt & _).
      exact (Hlt eq_refl).
    + destruct (decide_next_node_routes (heap_with_quality 0.5)
                  (condition_node "iteration" ">=" 0.5) 0) as (_ & _ & H & _).
      destruct (H "iteration" 0 0.5%float eq_refl eq_refl eq_refl)
        as (Hge & _).
      exact (Hge eq_refl).
    + destruct (decide_next_node_routes (heap_with_quality 0.5)
                  (condition_node "iteration" "==" 0) 0) as (_ & _ & H & _).
      destruct (H "iteration" 0 0%float eq_refl eq_refl eq_refl)
        as (_ & _ & _ & _ & Heq).
      exact (Heq eq_refl).
Defined.

(** C1 as the claim words it fails on two inputs.  With [condition_key =
    "code"] the field is a string and the comparison raises a [TypeError]
    where the claim promises a node name; with [next_on_failure = ""] (set, but
    empty) and a false comparison the code returns [next_node], not
    [next_on_failure]. *)
Lemma decide_next_node_claim_fails :
  (_decide_next_node (heap_with_quality 0.79) (threshold_node "code" None) 0
     = Raise (TypeError "ordering not supported between these types") /\
   decideNext_spec (heap_with_quality 0.79) (threshold_node "code" None) 0
     = Some "retry") /\
  (_decide_next_node (heap_with_quality 0.79)
     (threshold_node "quality_score" (Some "")) 0 = Ok (Some "retry") /\
   decideNext_spec (heap_with_quality 0.79)
     (threshold_node "quality_score" (Some "")) 0 = Some "").
Proof. repeat split. Qed.

(** ** C9: incomplete conditions *)

(** C9 (as amended): a node whose [condition_key] names a field of the state
    while [condition_op] or [condition_value] is unset is accepted and treated
    as a plain linear edge: the branch decision returns [next_node] and raises
    nothing. *)
Theorem incomplete_condition_is_linear
  (h : Heap) (cfg : NodeConfig) (st : loc) (field : string) :
  condition_key cfg = Some field ->
  is_Some (getattr h st field) ->
  condition_op cfg = None \/ condition_value cfg = None ->
  _decide_next_node h cfg st = Ok (next_node cfg).
Proof.
  intros Hk [v Hget] Hmiss. unfold _decide_next_node.
  rewrite Hk, (getattr_truthy _ _ _ _ Hget). simpl. rewrite Hget.
  destruct Hmiss as [-> | ->]; [reflexivity|].
  destruct (condition_op cfg); reflexivity.
Qed.

Lemma incomplete_condition_is_linear_witness :
  _decide_next_node (heap_with_quality 0.79) incomplete_node 0 = Ok None.
Proof.
  apply (incomplete_condition_is_linear (heap_with_quality 0.79)
           incomplete_node 0 "quality_score").
  - reflexivity.
  - eexists. reflexivity.
  - left. reflexivity.
Defined.

(** C9 as the claim words it fails: the node that names [quality_score] but
    no operator and no value is decided without an error, and a run of the
    graph made of that node executes it and finishes. *)
Lemma incomplete_condition_is_executed :
  _decide_next_node (heap_with_quality 0.79) incomplete_node 0 = Ok None /\
  exists w' run,
    run_graph 2 example_platform default_engine
      (example_world (graphs_of (single_node_graph "g" incomplete_node))
                     keep_tools) "g" 0 = Some (w', Ok run) /\
    finished run = true /\
    node <$> log run = ["check"].
Proof.
  split; [reflexivity|]. eexists _, _. split; [reflexivity|].
  split; reflexivity.
Qed.

(** ** C4: unknown operators *)

(** C4 (as amended): [_decide_next_node] checks no operator.  With a
    [condition_op] outside the five declared literals the condition counts as
    false whatever the field holds: the result is [next_on_failure] if that is
    a non-empty name, else [next_node], and nothing is raised.  Such a node
    does not have the declared type ([literal_op]). *)
Theorem unknown_operator_counts_as_false
  (h : Heap) (cfg : NodeConfig) (st : loc) (field op : string) (target : float) :
  condition_key cfg = Some field ->
  is_Some (getattr h st field) ->
  condition_op cfg = Some op ->
  op ∉ condition_ops ->
  condition_value cfg = Some target ->
  ~ literal_op cfg /\
  _decide_next_node h cfg st =
    Ok (if truthy (next_on_failure cfg) then next_on_failure cfg
        else next_node cfg).
Proof.
  intros Hk [v Hget] Hop Hnot Hval. split.
  - unfold literal_op. rewrite Hop. exact Hnot.
  - unfold _decide_next_node.
    rewrite Hk, (getattr_truthy _ _ _ _ Hget). simpl.
    rewrite Hget, Hop, Hval.
    assert (Hev : evaluate_condition op v target = Ok false).
    { unfold evaluate_condition, condition_ops in *.
      repeat match goal with
             | |- context [String.eqb op ?s] =>
                 destruct (String.eqb_spec op s) as [->|_];
                 [exfalso; apply Hnot; rewrite !elem_of_cons; tauto|]
             end.
      reflexivity. }
    rewrite Hev. reflexivity.
Qed.

Lemma unknown_operator_counts_as_false_witness :
  _decide_next_node (heap_with_quality 0.81) (unknown_op_node (Some "retry")) 0
  = Ok (Some "retry").
Proof.
  apply (unknown_operator_counts_as_false (heap_with_quality 0.81)
           (unknown_op_node (Some "retry")) 0 "quality_score" "!=" 0.8%float).
  - reflexivity.
  - eexists. reflexivity.
  - reflexivity.
  - unfold condition_ops. rewrite !elem_of_cons, elem_of_nil.
    intros [H|[H|[H|[H|[H|H]]]]]; (discriminate H || exact H).
  - reflexivity.
Defined.

(** C4 as the claim words it fails: with the operator "!=" and a field value
    of 0.81 against 0.8 the decision raises nothing and takes the failure
    route, and a run of the graph made of such a node executes it and
    finishes. *)
Lemma unknown_operator_is_not_rejected :
  _decide_next_node (heap_with_quality 0.81) (unknown_op_node (Some "retry")) 0
    = Ok (Some "retry") /\
  exists w' run,
    run_graph 2 example_platform default_engine
      (example_world (graphs_of (single_node_graph "g" (unknown_op_node None)))
                     keep_tools) "g" 0 = Some (w', Ok run) /\
    finished run = true /\
    node <$> log run = ["check"].
Proof.
  split; [reflexivity|]. eexists _, _. split; [reflexivity|].
  split; reflexivity.
Qed.

(** ** C10: the operation registry *)

(** C10: [register] raises [TypeError] for an object that is not callable and
    leaves the registry as it was; a callable is stored under [name],
    replacing what was there, so that [get name] returns the callable
    registered last, and the other names keep their entries. *)
Theorem register_then_get (w : World) (name : string) (func : pyobject) :
  (callable func = false ->
   ToolRegistry.register w name func
     = (w, Raise (TypeError "Tool must be callable"))) /\
  (callable func = true ->
   exists w',
     ToolRegistry.register w name func = (w', Ok tt) /\
     ToolRegistry.get w' name = Ok func /\
     (forall other, other ≠ name ->
        ToolRegistry.get w' other = ToolRegistry.get w other) /\
     (forall func2, callable func2 = true ->
        exists w'',
          ToolRegistry.register w' name func2 = (w'', Ok tt) /\
          ToolRegistry.get w'' name = Ok func2)).
Proof.
  split.
  - intros Hc. unfold ToolRegistry.register. rewrite Hc. reflexivity.
  - intros Hc. eexists. unfold ToolRegistry.register at 1. rewrite Hc. simpl.
    split; [reflexivity|]. split; [|split].
    + unfold ToolRegistry.get. simpl. rewrite lookup_insert_eq. reflexivity.
    + intros other Hne. unfold ToolRegistry.get. simpl.
      rewrite lookup_insert_ne by congruence. reflexivity.
    + intros func2 Hc2. eexists. unfold ToolRegistry.register. rewrite Hc2.
      simpl. split; [reflexivity|].
      unfold ToolRegistry.get. simpl. rewrite lookup_insert_eq. reflexivity.
Qed.

Lemma register_then_get_witness :
  ToolRegistry.register (example_world ∅ {[ "inc" := PyCallable keep_state ]})
    "inc" (PyData (DInt 3))
  = (example_world ∅ {[ "inc" := PyCallable keep_state ]},
     Raise (TypeError "Tool must be callable")) /\
  exists w',
    ToolRegistry.register
      (example_world ∅ {[ "inc" := PyCallable keep_state ]})
      "inc" (PyCallable bump_iteration) = (w', Ok tt) /\
    ToolRegistry.get w' "inc" = Ok (PyCallable bump_iteration).
Proof.
  split.
  - exact (proj1 (register_then_get _ "inc" (PyData (DInt 3))) eq_refl).
  - destruct (proj2 (register_then_get
                (example_world ∅ {[ "inc" := PyCallable keep_state ]})
                "inc" (PyCallable bump_iteration)) eq_refl)
      as (w' & Hreg & Hget & _).
    exists w'. split; assumption.
Defined.

(** ** C7: creating a run *)

Lemma run_ids_drawn_create P w gid st w' run :
  run_ids_drawn P w ->
  RunStore.create P w gid st = (w', Ok run) ->
  run_ids_drawn P w'.
Proof.
  intros Hinv. unfold RunStore.create.
  destruct (GraphStore.get w gid) as [graph|e]; [|discriminate].
  intros [= <- <-] rid. simpl.
  destruct (decide (rid = uuid4 P (uuid_draws w))) as [->|Hne].
  - intros _. exists (uuid_draws w). split; [lia | reflexivity].
  - rewrite lookup_insert_ne by congruence. intros Hs.
    destruct (Hinv rid Hs) as (k & Hk & Hrid). exists k. split; [lia | exact Hrid].
Qed.

(** C7: [RunStore.create] raises the "not found" [KeyError] for an unknown
    [graph_id] and then leaves the world, and so the run store, as it was.
    For a known graph it returns a run whose identifier is not yet in the
    store (identifiers drawn from [uuid4] being pairwise distinct), that
    stands at the start node with the given state, an empty log and
    [finished = False], and the store holds that run under its identifier
    next to all the runs it held before. *)
Theorem create_run (P : Platform) (w : World) (gid : string) (st : loc) :
  (graph_store w !! gid = None ->
   RunStore.create P w gid st
     = (w, Raise (KeyError ("Graph '" +:+ gid +:+ "' not found")))) /\
  (forall graph,
     graph_store w !! gid = Some graph ->
     Inj (=) (=) (uuid4 P) ->
     run_ids_drawn P w ->
     exists w' run,
       RunStore.create P w gid st = (w', Ok run) /\
       run_store w !! run_id run = None /\
       graph_id run = gid /\
       current_node run = Some (start_node graph) /\
       state run = st /\
       log run = [] /\
       finished run = false /\
       RunStore.get w' (run_id run) = Ok run /\
       (forall rid, rid ≠ run_id run ->
          run_store w' !! rid = run_store w !! rid) /\
       run_ids_drawn P w').
Proof.
  split.
  - intros Hg. unfold RunStore.create, GraphStore.get. rewrite Hg. reflexivity.
  - intros graph Hg Hinj Hinv.
    assert (Hc : RunStore.create P w gid st =
      (mkWorld (heap w) (graph_store w)
         (<[uuid4 P (uuid_draws w) :=
              mkRun (uuid4 P (uuid_draws w)) gid (Some (start_node graph)) st
                    [] false]> (run_store w))
         (tool_registry w) (S (uuid_draws w)) (clock_reads w),
       Ok (mkRun (uuid4 P (uuid_draws w)) gid (Some (start_node graph)) st
                 [] false))).
    { unfold RunStore.create, GraphStore.get. rewrite Hg. reflexivity. }
    eexists _, _. split; [exact Hc|]. simpl.
    split; [|repeat (split; [reflexivity|]); split; [|split]].
    + destruct (run_store w !! uuid4 P (uuid_draws w)) as [r|] eqn:Hr;
        [|reflexivity].
      destruct (Hinv _ (ex_intro _ r Hr)) as (k & Hk & Heq).
      apply Hinj in Heq. lia.
    + unfold RunStore.get. simpl. rewrite lookup_insert_eq. reflexivity.
    + intros rid Hne. rewrite lookup_insert_ne by congruence. reflexivity.
    + exact (run_ids_drawn_create _ _ _ _ _ _ Hinv Hc).
Qed.

Lemma create_run_witness :
  exists w' run,
    RunStore.create example_platform
      (example_world (graphs_of (single_node_graph "g" incomplete_node)) ∅)
      "g" 0 = (w', Ok run) /\
    current_node run = Some "check" /\
    RunStore.get w' (run_id run) = Ok run.
Proof.
  destruct (proj2 (create_run example_platform
              (example_world (graphs_of (single_node_graph "g" incomplete_node)) ∅)
              "g" 0)
              (single_node_graph "g" incomplete_node) eq_refl _)
    as (w' & run & Hc & _ & _ & Hcur & _ & _ & _ & Hget & _).
  - intros rid [r Hr]. simpl in Hr. rewrite lookup_empty in Hr. discriminate.
  - exists w', run. repeat split; assumption.
Defined.

(** ** The loop of [run_graph] *)

Lemma run_loop_step fuel P self graph w run cur :
  current_node run = Some cur ->
  finished run = false ->
  run_loop (S fuel) P self graph w run =
    match loop_body P self graph w run cur with
    | Continue w' run' => run_loop fuel P self graph w' run'
    | Break w' run' => Some (Done w' run')
    | Propagate w' run' e => Some (Aborted w' run' e)
    end.
Proof. intros Hc Hf. cbn [run_loop]. rewrite Hc, Hf. reflexivity. Qed.

Lemma run_loop_idle fuel P self graph w run :
  current_node run = None \/ finished run = true ->
  run_loop fuel P self graph w run = Some (Done w run).
Proof.
  intros H. destruct fuel; cbn [run_loop];
    destruct (current_node run); destruct H as [H|H];
    try discriminate; try reflexivity; rewrite H; reflexivity.
Qed.

(** More fuel never changes a result already reached. *)
Lemma run_loop_mono fuel fuel' P self graph w run r :
  run_loop fuel P self graph w run = Some r ->
  (fuel <= fuel')%nat ->
  run_loop fuel' P self graph w run = Some r.
Proof.
  revert fuel' w run. induction fuel as [|fuel IH]; intros fuel' w run Hr Hle.
  - cbn [run_loop] in Hr.
    destruct (current_node run) as [cur|] eqn:Hc.
    + destruct (finished run) eqn:Hf; [|discriminate].
      rewrite run_loop_idle by (right; exact Hf). exact Hr.
    + rewrite run_loop_idle by (left; exact Hc). exact Hr.
  - destruct fuel' as [|fuel']; [lia|].
    destruct (current_node run) as [cur|] eqn:Hc.
    + destruct (finished run) eqn:Hf.
      * rewrite run_loop_idle in Hr |- * by (right; exact Hf). exact Hr.
      * rewrite (run_loop_step _ _ _ _ _ _ cur) in Hr by assumption.
        rewrite (run_loop_step _ _ _ _ _ _ cur) by assumption.
        destruct (loop_body P self graph w run cur); try exact Hr.
        apply IH; [exact Hr | lia].
    + rewrite run_loop_idle in Hr |- * by (left; exact Hc). exact Hr.
Qed.

Lemma run_graph_mono fuel fuel' P self w gid st x :
  run_graph fuel P self w gid st = Some x ->
  (fuel <= fuel')%nat ->
  run_graph fuel' P self w gid st = Some x.
Proof.
  unfold run_graph. intros Hx Hle.
  destruct (GraphStore.get w gid) as [graph|e]; [|exact Hx].
  destruct (RunStore.create P w gid st) as [w1 [run|e]]; [|exact Hx].
  destruct (run_loop fuel P self graph w1 run) as [r|] eqn:Hr; [|discriminate].
  rewrite (run_loop_mono _ _ _ _ _ _ _ _ Hr Hle). exact Hx.
Qed.

(** The guard: at or above the bound the body only sets [finished]. *)
Lemma loop_body_guard P self graph w run cur :
  max_iterations self <= iteration (states (heap w) (state run)) ->
  loop_body P self graph w run cur = Break w (set_finished run).
Proof.
  intros Hge. unfold loop_body.
  destruct (Z.geb_spec (iteration (states (heap w) (state run)))
              (max_iterations self)); [reflexivity | lia].
Qed.

Lemma call_tool_returns_state P f h st h' st' :
  f h st = ToolReturns h' (RetState st') ->
  call_tool P (PyCallable f) h st = (h', Ok st').
Proof. intros Hf. unfold call_tool. rewrite Hf. reflexivity. Qed.

(** Below the bound, with the node and its operation resolved, the operation
    run and the next node decided, the body logs one entry and moves on. *)
Lemma loop_body_executes P self graph w run cur cfg func h1 st1 next :
  iteration (states (heap w) (state run)) < max_iterations self ->
  nodes graph !! cur = Some cfg ->
  tool_registry w !! tool cfg = Some func ->
  call_tool P func (heap w) (state run) = (h1, Ok st1) ->
  _decide_next_node h1 cfg st1 = Ok next ->
  loop_body P self graph w run cur =
    match next with
    | None =>
        Break (after_node w h1)
              (set_finished (set_current_node (logged P w run cfg h1 st1) None))
    | Some _ =>
        Continue (after_node w h1)
                 (set_current_node (logged P w run cfg h1 st1) next)
    end.
Proof.
  intros Hlt Hn Ht Hcall Hdec. unfold loop_body.
  destruct (Z.geb_spec (iteration (states (heap w) (state run)))
              (max_iterations self)); [lia|].
  rewrite Hn. unfold ToolRegistry.get. rewrite Ht, Hcall. cbn.
  rewrite Hdec. destruct next; reflexivity.
Qed.

(** Every way the body of the loop can end. *)
Lemma loop_body_outcome P self graph w run cur :
  match loop_body P self graph w run cur with
  | Continue w' run' =>
      exists cfg h1 st1 n,
        executed P self graph w run cur cfg h1 st1 /\
        _decide_next_node h1 cfg st1 = Ok (Some n) /\
        w' = after_node w h1 /\
        run' = set_current_node (logged P w run cfg h1 st1) (Some n)
  | Break w' run' =>
      (max_iterations self <= iteration (states (heap w) (state run)) /\
       w' = w /\ run' = set_finished run) \/
      (exists cfg h1 st1,
         executed P self graph w run cur cfg h1 st1 /\
         _decide_next_node h1 cfg st1 = Ok None /\
         w' = after_node w h1 /\
         run' = set_finished (set_current_node (logged P w run cfg h1 st1) None))
  | Propagate w' run' e =>
      iteration (states (heap w) (state run)) < max_iterations self /\
      tool_registry w' = tool_registry w /\
      ((run' = run /\
        (nodes graph !! cur = None /\ e = KeyError cur /\ w' = w \/
         exists cfg, nodes graph !! cur = Some cfg /\
           (ToolRegistry.get w (tool cfg) = Raise e /\ w' = w \/
            exists func h1,
              tool_registry w !! tool cfg = Some func /\
              call_tool P func (heap w) (state run) = (h1, Raise e) /\
              w' = with_heap w h1))) \/
       (exists cfg h1 st1,
          executed P self graph w run cur cfg h1 st1 /\
          _decide_next_node h1 cfg st1 = Raise e /\
          w' = after_node w h1 /\
          run' = logged P w run cfg h1 st1))
  end.
Proof.
  unfold loop_body.
  destruct (Z.geb_spec (iteration (states (heap w) (state run)))
              (max_iterations self)) as [Hge|Hlt].
  { left. repeat split. lia. }
  destruct (nodes graph !! cur) as [cfg|] eqn:Hn.
  2:{ repeat split; [exact Hlt|]. left. split; [reflexivity|]. left.
      repeat split. }
  unfold ToolRegistry.get.
  destruct (tool_registry w !! tool cfg) as [func|] eqn:Ht.
  2:{ repeat split; [exact Hlt|]. left. split; [reflexivity|]. right.
      exists cfg. split; [reflexivity|]. left. rewrite Ht. repeat split. }
  destruct (call_tool P func (heap w) (state run)) as [h1 [st1|e]] eqn:Hcall.
  2:{ repeat split; [exact Hlt|]. left. split; [reflexivity|]. right.
      exists cfg. split; [reflexivity|]. right. exists func, h1.
      repeat split; assumption. }
  assert (Hex : executed P self graph w run cur cfg h1 st1).
  { split; [exact Hlt|]. split; [exact Hn|]. exists func. split; assumption. }
  cbn.
  destruct (_decide_next_node h1 cfg st1) as [[n|]|e] eqn:Hdec.
  - exists cfg, h1, st1, n. split; [exact Hex|]. repeat split; assumption.
  - right. exists cfg, h1, st1. split; [exact Hex|]. repeat split; assumption.
  - repeat split; [exact Hlt|]. right. exists cfg, h1, st1.
    split; [exact Hex|]. repeat split; assumption.
Qed.

(** ** C2: the iteration guard on a self-loop *)

(** From a run standing on the self-loop [k] iterations below the bound, the
    loop executes the node [k] times and then the guard ends it. *)
Lemma self_loop_iterates P self graph n cfg f k :
  self_loop graph n cfg ->
  increments_iteration f ->
  forall fuel w run,
    tool_registry w !! tool cfg = Some (PyCallable f) ->
    current_node run = Some n ->
    finished run = false ->
    iteration (states (heap w) (state run)) = max_iterations self - Z.of_nat k ->
    (k < fuel)%nat ->
    exists w' run',
      run_loop fuel P self graph w run = Some (Done w' run') /\
      finished run' = true /\
      current_node run' = Some n /\
      length (log run') = (length (log run) + k)%nat /\
      run_id run' = run_id run.
Proof.
  intros (Hn & Hkey & Hnext) Hinc.
  induction k as [|k IH]; intros fuel w run Ht Hcur Hfin Hit Hfuel;
    (destruct fuel as [|fuel]; [lia|]);
    rewrite (run_loop_step _ _ _ _ _ _ n) by assumption.
  - rewrite loop_body_guard by lia.
    eexists _, _. split; [reflexivity|]. simpl.
    repeat split; [assumption | lia].
  - destruct (Hinc (heap w) (state run)) as (h1 & st1 & Hf & Hit1).
    rewrite (loop_body_executes P self graph w run n cfg (PyCallable f)
               h1 st1 (Some n)); try assumption.
    + destruct (IH fuel (after_node w h1)
                  (set_current_node (logged P w run cfg h1 st1) (Some n)))
        as (w' & run' & Hrun & Hfin' & Hcur' & Hlen & Hid);
        try (reflexivity || assumption).
      * simpl. lia.
      * lia.
      * exists w', run'. split; [exact Hrun|].
        repeat split; try assumption.
        rewrite Hlen. simpl. rewrite length_app. simpl. lia.
    + lia.
    + apply call_tool_returns_state. exact Hf.
    + rewrite <- Hnext. apply decide_next_node_linear. exact Hkey.
Qed.

(** C2: on a graph whose start node is a self-loop with an operation that
    adds one to [state.iteration], started from [iteration = 0] with
    [max_iterations = N], [run_graph] returns a run with [finished = True] and
    exactly [N] log entries.  The guard trips before an (N+1)-th execution
    and leaves [current_node] on the node of the loop.  Any bound above [N]
    on the number of loop bodies is enough. *)
Theorem self_loop_runs_exactly_max_iterations
  (P : Platform) (N : nat) (w : World) (gid : string) (graph : Graph)
  (cfg : NodeConfig) (f : ToolFunc) (st : loc) (fuel : nat) :
  graph_store w !! gid = Some graph ->
  self_loop graph (start_node graph) cfg ->
  tool_registry w !! tool cfg = Some (PyCallable f) ->
  increments_iteration f ->
  iteration (states (heap w) st) = 0 ->
  (N < fuel)%nat ->
  exists w' run,
    run_graph fuel P (mkEngine (Z.of_nat N)) w gid st = Some (w', Ok run) /\
    finished run = true /\
    length (log run) = N /\
    current_node run = Some (start_node graph) /\
    RunStore.get w' (run_id run) = Ok run.
Proof.
  intros Hg Hloop Ht Hinc Hit Hfuel.
  unfold run_graph, RunStore.create, GraphStore.get. rewrite Hg.
  match goal with
  | |- context [run_loop fuel P ?self graph ?w1 ?run1] =>
      destruct (self_loop_iterates P self graph (start_node graph) cfg f N
                  Hloop Hinc fuel w1 run1)
        as (w' & run' & Hrun & Hfin & Hcur & Hlen & Hid)
  end; try (reflexivity || assumption).
  - simpl. lia.
  - rewrite Hrun. eexists _, _. split; [reflexivity|].
    repeat split; try assumption.
    unfold RunStore.get, RunStore.update. simpl.
    rewrite lookup_insert_eq. reflexivity.
Qed.

Lemma bump_iteration_increments : increments_iteration bump_iteration.
Proof.
  intros h st. eexists _, _. split; [reflexivity|].
  simpl. unfold upd. rewrite Nat.eqb_refl. reflexivity.
Qed.

Lemma self_loop_runs_exactly_max_iterations_witness :
  exists w' run,
    run_graph 4 example_platform (mkEngine 3)
      (loop_world "inc" (PyCallable bump_iteration)) "loop" 0
    = Some (w', Ok run) /\
    finished run = true /\
    length (log run) = 3%nat /\
    current_node run = Some "step" /\
    RunStore.get w' (run_id run) = Ok run.
Proof.
  apply (self_loop_runs_exactly_max_iterations example_platform 3
           (loop_world "inc" (PyCallable bump_iteration)) "loop"
           (single_node_graph "loop" (loop_node "inc")) (loop_node "inc")
           bump_iteration 0 4).
  - reflexivity.
  - repeat split.
  - reflexivity.
  - exact bump_iteration_increments.
  - reflexivity.
  - lia.
Defined.

(** ** C3: termination *)

(** A self-loop whose operation leaves [iteration] alone never ends while the
    run is below the bound. *)
Lemma self_loop_never_ends P self graph n cfg f :
  self_loop graph n cfg ->
  keeps_iteration f ->
  forall fuel w run,
    tool_registry w !! tool cfg = Some (PyCallable f) ->
    current_node run = Some n ->
    finished run = false ->
    iteration (states (heap w) (state run)) < max_iterations self ->
    run_loop fuel P self graph w run = None.
Proof.
  intros (Hn & Hkey & Hnext) Hkeep.
  induction fuel as [|fuel IH]; intros w run Ht Hcur Hfin Hit.
  - cbn [run_loop]. rewrite Hcur, Hfin. reflexivity.
  - rewrite (run_loop_step _ _ _ _ _ _ n) by assumption.
    destruct (Hkeep (heap w) (state run)) as (h1 & st1 & Hf & Hit1).
    rewrite (loop_body_executes P self graph w run n cfg (PyCallable f)
               h1 st1 (Some n)); try assumption.
    + apply IH; try (reflexivity || assumption). simpl. lia.
    + apply call_tool_returns_state. exact Hf.
    + rewrite <- Hnext. apply decide_next_node_linear. exact Hkey.
Qed.

Lemma run_graph_on_idle_self_loop P self w gid graph cfg f st fuel :
  graph_store w !! gid = Some graph ->
  self_loop graph (start_node graph) cfg ->
  tool_registry w !! tool cfg = Some (PyCallable f) ->
  keeps_iteration f ->
  iteration (states (heap w) st) < max_iterations self ->
  run_graph fuel P self w gid st = None.
Proof.
  intros Hg Hloop Ht Hkeep Hit.
  unfold run_graph, RunStore.create, GraphStore.get. rewrite Hg.
  rewrite (self_loop_never_ends P self graph (start_node graph) cfg f Hloop
             Hkeep); try (reflexivity || assumption).
Qed.

Lemma keep_state_keeps_iteration : keeps_iteration keep_state.
Proof. intros h st. exists h, st. split; reflexivity. Qed.

(** C3 as the claim words it fails: with the default bound of 20, the stored
    one-node graph whose node loops to itself and whose registered operation
    returns the state as it got it keeps [run_graph] running for ever. *)
Lemma run_graph_need_not_terminate :
  ~ terminates example_platform default_engine
      (loop_world "keep" (PyCallable keep_state)) "loop" 0.
Proof.
  intros [fuel [r Hr]].
  rewrite (run_graph_on_idle_self_loop example_platform default_engine
             (loop_world "keep" (PyCallable keep_state)) "loop"
             (single_node_graph "loop" (loop_node "keep"))
             (loop_node "keep") keep_state 0 fuel) in Hr.
  - discriminate.
  - reflexivity.
  - repeat split.
  - reflexivity.
  - exact keep_state_keeps_iteration.
  - reflexivity.
Qed.

(** With operations that raise [iteration] at every call, the loop ends
    within as many bodies as the state is below the bound, and logs at most
    that many entries. *)
Lemma run_loop_bounded P self graph fuel :
  forall (k : nat) w run,
    (forall name func,
       tool_registry w !! name = Some func -> raises_iteration P func) ->
    max_iterations self - iteration (states (heap w) (state run))
      <= Z.of_nat k ->
    (k < fuel)%nat ->
    exists r,
      run_loop fuel P self graph w run = Some r /\
      (length (log (result_run r)) <= length (log run) + k)%nat.
Proof.
  induction fuel as [|fuel IH]; intros k w run Htools Hk Hfuel; [lia|].
  destruct (current_node run) as [cur|] eqn:Hcur.
  2:{ rewrite run_loop_idle by (left; exact Hcur).
      eexists. split; [reflexivity|]. simpl. lia. }
  destruct (finished run) eqn:Hfin.
  { rewrite run_loop_idle by (right; exact Hfin).
    eexists. split; [reflexivity|]. simpl. lia. }
  rewrite (run_loop_step _ _ _ _ _ _ cur) by assumption.
  pose proof (loop_body_outcome P self graph w run cur) as Hout.
  destruct (loop_body P self graph w run cur) as [w' run'|w' run'|w' run' e].
  - destruct Hout as (cfg & h1 & st1 & n & Hex & _ & -> & ->).
    destruct Hex as (Hlt & _ & func & Ht & Hcall).
    pose proof (Htools _ _ Ht _ _ _ _ Hcall) as Hup.
    destruct k as [|k]; [lia|].
    destruct (IH k (after_node w h1)
                (set_current_node (logged P w run cfg h1 st1) (Some n)))
      as (r & Hr & Hlen).
    + exact Htools.
    + simpl. lia.
    + lia.
    + exists r. split; [exact Hr|].
      simpl in Hlen. rewrite length_app in Hlen. simpl in Hlen. lia.
  - eexists. split; [reflexivity|]. simpl.
    destruct Hout as [(_ & _ & ->) | (cfg & h1 & st1 & Hex & _ & _ & ->)].
    + simpl. lia.
    + destruct Hex as (Hlt & _). simpl. rewrite length_app. simpl. lia.
  - eexists. split; [reflexivity|]. simpl.
    destruct Hout as (Hlt & _ & [(-> & _) | (cfg & h1 & st1 & _ & _ & _ & ->)]).
    + lia.
    + simpl. rewrite length_app. simpl. lia.
Qed.

(** C3 (as amended): when every registered operation raises
    [state.iteration] at each call that yields a state, [run_graph]
    terminates for every stored or unknown graph and every initial state, by
    returning a run or by raising; a returned run has executed at most
    [max_iterations - iteration] nodes, counted from the initial state (none
    when that difference is negative). *)
Theorem run_graph_terminates_when_iteration_grows
  (P : Platform) (self : GraphEngine) (w : World) (gid : string) (st : loc) :
  (forall name func,
     tool_registry w !! name = Some func -> raises_iteration P func) ->
  terminates P self w gid st /\
  (forall fuel w' run,
     run_graph fuel P self w gid st = Some (w', Ok run) ->
     (length (log run)
      <= Z.to_nat (max_iterations self - iteration (states (heap w) st)))%nat).
Proof.
  intros Htools.
  set (k := Z.to_nat (max_iterations self - iteration (states (heap w) st))).
  assert (Hend : exists x, run_graph (S k) P self w gid st = Some x /\
            forall run, x.2 = Ok run -> (length (log run) <= k)%nat).
  { unfold run_graph, RunStore.create.
    destruct (GraphStore.get w gid) as [graph|e].
    2:{ eexists. split; [reflexivity|]. discriminate. }
    match goal with
    | |- context [run_loop _ P self graph ?w1 ?run1] =>
        destruct (run_loop_bounded P self graph (S k) k w1 run1)
          as (r & Hr & Hlen)
    end.
    - exact Htools.
    - simpl. lia.
    - lia.
    - rewrite Hr. simpl in Hlen. destruct r as [w2 run'|w2 run' e].
      + eexists. split; [reflexivity|]. simpl. intros run [= <-]. exact Hlen.
      + eexists. split; [reflexivity|]. discriminate. }
  destruct Hend as (x & Hx & Hlen). split.
  - exists (S k). rewrite Hx. eexists. reflexivity.
  - intros fuel w' run Hrun.
    pose proof (run_graph_mono _ (Nat.max fuel (S k)) _ _ _ _ _ _ Hrun
                  (Nat.le_max_l _ _)) as H1.
    pose proof (run_graph_mono _ (Nat.max fuel (S k)) _ _ _ _ _ _ Hx
                  (Nat.le_max_r _ _)) as H2.
    rewrite H1 in H2. injection H2 as <-. apply Hlen. reflexivity.
Qed.

Lemma bump_iteration_raises P : raises_iteration P (PyCallable bump_iteration).
Proof.
  intros h st h' st'. unfold call_tool, bump_iteration.
  intros [= <- <-]. simpl. unfold upd. rewrite Nat.eqb_refl. simpl. lia.
Qed.

Lemma run_graph_terminates_when_iteration_grows_witness :
  terminates example_platform default_engine
    (loop_world "inc" (PyCallable bump_iteration)) "loop" 0.
Proof.
  apply (run_graph_terminates_when_iteration_grows example_platform
           default_engine (loop_world "inc" (PyCallable bump_iteration))
           "loop" 0).
  intros name func Hl. cbn in Hl.
  apply lookup_singleton_Some in Hl as [_ <-].
  apply bump_iteration_raises.
Defined.

(** ** C5: a dangling node reference *)

(** C5 (as amended): when the loop stands, below the bound, on a node name
    that the graph's node mapping does not have, the run aborts with the
    [KeyError] of the failed lookup, carrying that name.  When the node is
    there and its operation name is not in the registry, the run aborts with
    the registry's [KeyError].  Both are of the same exception class and both
    reach the caller of the HTTP layer as a 404. *)
Theorem dangling_node_raises_KeyError
  (P : Platform) (self : GraphEngine) (graph : Graph) (w : World)
  (run : GraphRun) (cur : string) (fuel : nat) :
  current_node run = Some cur ->
  finished run = false ->
  iteration (states (heap w) (state run)) < max_iterations self ->
  (nodes graph !! cur = None ->
   run_loop (S fuel) P self graph w run
     = Some (Aborted w run (KeyError cur))) /\
  (forall cfg,
     nodes graph !! cur = Some cfg ->
     tool_registry w !! tool cfg = None ->
     run_loop (S fuel) P self graph w run
       = Some (Aborted w run
                 (KeyError ("Tool '" +:+ tool cfg +:+ "' not registered")))) /\
  (forall a b,
     class_of (KeyError a) = class_of (KeyError b) /\
     http_status (Raise (A := GraphRun) (KeyError a)) = 404 /\
     http_status (Raise (A := GraphRun) (KeyError b)) = 404).
Proof.
  intros Hcur Hfin Hlt.
  assert (Hguard : (iteration (states (heap w) (state run))
                    >=? max_iterations self) = false).
  { destruct (Z.geb_spec (iteration (states (heap w) (state run)))
                (max_iterations self)); [lia | reflexivity]. }
  split; [|split].
  - intros Hn. rewrite (run_loop_step _ _ _ _ _ _ cur) by assumption.
    unfold loop_body. rewrite Hguard, Hn. reflexivity.
  - intros cfg Hn Ht. rewrite (run_loop_step _ _ _ _ _ _ cur) by assumption.
    unfold loop_body, ToolRegistry.get. rewrite Hguard, Hn, Ht. reflexivity.
  - intros a b. repeat split.
Qed.

Lemma dangling_node_raises_KeyError_witness :
  run_loop 1 example_platform default_engine
    (single_node_graph "g" dangling_node)
    (example_world ∅ keep_tools)
    (mkRun "0" "g" (Some "ghost") 0 [] false)
  = Some (Aborted (example_world ∅ keep_tools)
            (mkRun "0" "g" (Some "ghost") 0 [] false) (KeyError "ghost")).
Proof.
  apply (dangling_node_raises_KeyError example_platform default_engine
           (single_node_graph "g" dangling_node) (example_world ∅ keep_tools)
           (mkRun "0" "g" (Some "ghost") 0 [] false) "ghost" 0);
    reflexivity.
Defined.

(** C5 as the claim words it fails: the run over the dangling edge and the
    run over the unregistered operation both end in a [KeyError]; the two
    errors have the same class and the same HTTP status. *)
Lemma dangling_node_error_is_not_distinct :
  (snd <$> run_graph 3 example_platform default_engine
             (example_world (graphs_of (single_node_graph "g" dangling_node))
                            keep_tools) "g" 0)
    = Some (Raise (KeyError "ghost")) /\
  (snd <$> run_graph 3 example_platform default_engine
             (example_world (graphs_of (single_node_graph "g" unregistered_node))
                            keep_tools) "g" 0)
    = Some (Raise (KeyError "Tool 'nope' not registered")) /\
  class_of (KeyError "ghost")
    = class_of (KeyError "Tool 'nope' not registered") /\
  http_status (Raise (A := GraphRun) (KeyError "ghost"))
    = http_status (Raise (A := GraphRun)
                     (KeyError "Tool 'nope' not registered")).
Proof. repeat split. Qed.

(** ** C6: graphs without branch conditions *)







(** ** C8: logged snapshots *)

(** One body appends at most one entry, whose snapshot is the [.dict()] of
    the state as the operation left it. *)
Lemma loop_body_log P self graph w run cur :
  let b := loop_body P self graph w run cur in
  log (body_run b) = log run \/
  exists entry,
    log (body_run b) = (log run ++ [entry])%list /\
    state_snapshot entry = state_dict (heap (body_world b)) (state (body_run b)).
Proof.
  cbv zeta. pose proof (loop_body_outcome P self graph w run cur) as Hout.
  destruct (loop_body P self graph w run cur) as [w' run'|w' run'|w' run' e];
    simpl.
  - destruct Hout as (cfg & h1 & st1 & n & _ & _ & -> & ->).
    right. eexists. split; reflexivity.
  - destruct Hout as [(_ & -> & ->) | (cfg & h1 & st1 & _ & _ & -> & ->)].
    + left. reflexivity.
    + right. eexists. split; reflexivity.
  - destruct Hout as (_ & _ & [(-> & _) | (cfg & h1 & st1 & _ & _ & -> & ->)]).
    + left. reflexivity.
    + right. eexists. split; reflexivity.
Qed.

(** The loop only ever appends to the log: an entry stays at its index. *)
Lemma run_loop_keeps_entries P self graph fuel :
  forall w run r,
    run_loop fuel P self graph w run = Some r ->
    forall i entry,
      log run !! i = Some entry -> log (result_run r) !! i = Some entry.
Proof.
  induction fuel as [|fuel IH]; intros w run r Hr i entry Hi.
  - cbn [run_loop] in Hr. destruct (current_node run); [|injection Hr as <-; exact Hi].
    destruct (finished run); [injection Hr as <-; exact Hi | discriminate].
  - destruct (current_node run) as [cur|] eqn:Hcur.
    2:{ rewrite run_loop_idle in Hr by (left; exact Hcur).
        injection Hr as <-. exact Hi. }
    destruct (finished run) eqn:Hfin.
    { rewrite run_loop_idle in Hr by (right; exact Hfin).
      injection Hr as <-. exact Hi. }
    rewrite (run_loop_step _ _ _ _ _ _ cur) in Hr by assumption.
    pose proof (loop_body_log P self graph w run cur) as Hlog. cbv zeta in Hlog.
    assert (Hkeep : log (body_run (loop_body P self graph w run cur)) !! i
                    = Some entry).
    { destruct Hlog as [-> | (e & -> & _)]; [exact Hi|].
      apply lookup_app_l_Some. exact Hi. }
    destruct (loop_body P self graph w run cur) as [w' run'|w' run'|w' run' e];
      simpl in Hkeep.
    + eapply IH; eassumption.
    + injection Hr as <-. exact Hkeep.
    + injection Hr as <-. exact Hkeep.
Qed.

(** Induction on values, with the hypothesis for every element of a list
    and for every value of a dict. *)
Lemma data_ind' (Q : data -> Prop) :
  Q DNone -> (forall b, Q (DBool b)) -> (forall z, Q (DInt z)) ->
  (forall f, Q (DFloat f)) -> (forall s, Q (DStr s)) ->
  (forall xs, Forall Q xs -> Q (DList xs)) ->
  (forall kvs, Forall (fun kv => Q (snd kv)) kvs -> Q (DDict kvs)) ->
  (forall o, Q (DObj o)) ->
  forall d, Q d.
Proof.
  intros HN HB HZ HF HS HL HD HO. fix IH 1.
  intros [ |b|z|f|s|xs|kvs|o].
  - exact HN.
  - apply HB.
  - apply HZ.
  - apply HF.
  - apply HS.
  - apply HL. induction xs as [|x xs IHxs]; constructor; [apply IH | exact IHxs].
  - apply HD. induction kvs as [|[k v] kvs IHkvs]; constructor;
      [apply IH | exact IHkvs].
  - apply HO.
Qed.

(** What is read from a value changes only through the objects that the
    value refers to. *)
Lemma read_agree h h' d :
  (forall o, o ∈ data_objects d -> objects h' o = objects h o) ->
  read h' d = read h d.
Proof.
  induction d as [ | | | | |xs IHxs|kvs IHkvs|o] using data_ind';
    intros Hobj; try reflexivity.
  - cbn. f_equal. induction IHxs as [|x xs Hx _ IH]; [reflexivity|].
    cbn. f_equal.
    + apply Hx. intros o Ho. apply Hobj. cbn. apply elem_of_app. left. exact Ho.
    + apply IH. intros o Ho. apply Hobj. cbn. apply elem_of_app. right. exact Ho.
  - cbn. f_equal. induction IHkvs as [|[k v] kvs Hx _ IH]; [reflexivity|].
    cbn. f_equal.
    + f_equal. apply Hx. intros o Ho. apply Hobj. cbn. apply elem_of_app.
      left. exact Ho.
    + apply IH. intros o Ho. apply Hobj. cbn. apply elem_of_app. right. exact Ho.
  - cbn. f_equal. apply Hobj. cbn. constructor.
Qed.

(** A value that refers to no object reads the same in every heap. *)
Lemma read_json h d : data_objects d = [] -> read h d = d.
Proof.
  induction d as [ | | | | |xs IHxs|kvs IHkvs|o] using data_ind';
    intros Hnone; try reflexivity.
  - cbn in *. f_equal. induction IHxs as [|x xs Hx _ IH]; [reflexivity|].
    cbn in *. apply app_eq_nil in Hnone as [Hx0 Hxs0].
    rewrite (Hx Hx0), (IH Hxs0). reflexivity.
  - cbn in *. f_equal. induction IHkvs as [|[k v] kvs Hx _ IH]; [reflexivity|].
    cbn in *. apply app_eq_nil in Hnone as [Hx0 Hxs0].
    rewrite (Hx Hx0), (IH Hxs0). reflexivity.
  - discriminate.
Qed.

Lemma strs_no_objects xs : flat_map data_objects (map DStr xs) = [].
Proof. induction xs as [|x xs IH]; [reflexivity | exact IH]. Qed.

Lemma ints_no_objects (kvs : list (string * Z)) :
  flat_map (fun kv => data_objects (snd kv))
    (map (fun kv => (fst kv, DInt (snd kv))) kvs) = [].
Proof. induction kvs as [|x xs IH]; [reflexivity | exact IH]. Qed.

(** The objects a snapshot refers to are those held in the issue records. *)
Lemma state_dict_objects h st o :
  o ∈ data_objects (DDict (state_dict h st)) ->
  exists l k v,
    l ∈ dict_lists h (issues (states h st)) /\
    (k, v) ∈ any_dicts h l /\
    o ∈ data_objects v.
Proof.
  unfold state_dict. cbn [data_objects flat_map snd].
  rewrite !strs_no_objects, ints_no_objects. cbn [app].
  rewrite app_nil_r.
  intros Ho. apply list_elem_of_In, in_flat_map in Ho as (d & Hd & Ho).
  apply in_map_iff in Hd as (l & <- & Hl).
  cbn [data_objects] in Ho. apply in_flat_map in Ho as ([k v] & Hkv & Ho).
  exists l, k, v. rewrite !list_elem_of_In. auto.
Qed.

Lemma json_snapshot h st :
  json_issues h st -> data_objects (DDict (state_dict h st)) = [].
Proof.
  intros Hjson.
  destruct (data_objects (DDict (state_dict h st))) as [|o os] eqn:Hos;
    [reflexivity | exfalso].
  destruct (state_dict_objects h st o) as (l & k & v & Hl & Hkv & Ho).
  { rewrite Hos. constructor. }
  rewrite (Hjson l k v Hl Hkv) in Ho. inversion Ho.
Qed.

Lemma loop_body_logged P self graph w run cur cfg h1 st1 :
  executed P self graph w run cur cfg h1 st1 ->
  loop_body P self graph w run cur =
    match _decide_next_node h1 cfg st1 with
    | Ok (Some n) =>
        Continue (after_node w h1)
                 (set_current_node (logged P w run cfg h1 st1) (Some n))
    | Ok None =>
        Break (after_node w h1)
              (set_finished (set_current_node (logged P w run cfg h1 st1) None))
    | Raise e => Propagate (after_node w h1) (logged P w run cfg h1 st1) e
    end.
Proof.
  intros (Hlt & Hn & func & Ht & Hcall). unfold loop_body.
  destruct (Z.geb_spec (iteration (states (heap w) (state run)))
              (max_iterations self)); [lia|].
  rewrite Hn. unfold ToolRegistry.get. rewrite Ht, Hcall. cbn.
  destruct (_decide_next_node h1 cfg st1) as [[n|]|e]; reflexivity.
Qed.

(** C8 (as amended): when a loop body executes a node, the entry it appends
    carries the node's name, the reading of the clock and, as
    [state_snapshot], the [.dict()] of the state at that moment: the scalar
    fields by value and every list and dict of the state rebuilt from what it
    holds in the heap that the operation left.  After any continuation of the
    loop the entry is found unchanged at its index, and what a reader finds in
    its snapshot in the final heap is what there was to find at the moment of
    logging as long as the objects of other classes that the issue records
    held have not been mutated; when the issue records held JSON data only,
    the snapshot reads as it was logged whatever the later operations did. *)
Theorem logged_snapshots_are_independent
  (P : Platform) (self : GraphEngine) (graph : Graph) (w : World)
  (run : GraphRun) (cur : string) (cfg : NodeConfig) (h1 : Heap) (st1 : loc) :
  executed P self graph w run cur cfg h1 st1 ->
  let b := loop_body P self graph w run cur in
  let s1 := states h1 st1 in
  let snapshot :=
    [ ("code", DStr (code s1));
      ("functions", DList (map DStr (str_lists h1 (functions s1))));
      ("complexity",
        DDict (map (fun kv => (fst kv, DInt (snd kv)))
                 (int_dicts h1 (complexity s1))));
      ("issues",
        DList (map (fun l => DDict (any_dicts h1 l))
                 (dict_lists h1 (issues s1))));
      ("suggestions", DList (map DStr (str_lists h1 (suggestions s1))));
      ("quality_score", DFloat (quality_score s1));
      ("threshold", DFloat (threshold s1));
      ("iteration", DInt (iteration s1)) ] in
  let entry := mkEntry (name cfg) (utcnow P (clock_reads w)) snapshot in
  log (body_run b) = (log run ++ [entry])%list /\
  heap (body_world b) = h1 /\
  forall fuel r,
    run_loop fuel P self graph (body_world b) (body_run b) = Some r ->
    let h' := heap (result_world r) in
    log (result_run r) !! length (log run) = Some entry /\
    ((forall o, o ∈ data_objects (DDict snapshot) ->
        objects h' o = objects h1 o) ->
     read h' (DDict snapshot) = read h1 (DDict snapshot)) /\
    (json_issues h1 st1 -> read h' (DDict snapshot) = DDict snapshot).
Proof.
  intros Hex. cbv zeta.
  assert (Hb : log (body_run (loop_body P self graph w run cur))
               = (log run ++ [mkEntry (name cfg) (utcnow P (clock_reads w))
                                (state_dict h1 st1)])%list /\
               heap (body_world (loop_body P self graph w run cur)) = h1).
  { rewrite (loop_body_logged _ _ _ _ _ _ _ _ _ Hex).
    destruct (_decide_next_node h1 cfg st1) as [[n|]|e]; split; reflexivity. }
  destruct Hb as [Hlog Hheap].
  split; [exact Hlog|]. split; [exact Hheap|].
  intros fuel r Hr. split; [|split].
  - eapply run_loop_keeps_entries; [exact Hr|].
    rewrite Hlog. apply list_lookup_middle. reflexivity.
  - intros Hobj. apply read_agree. exact Hobj.
  - intros Hjson.
    apply read_json. exact (json_snapshot h1 st1 Hjson).
Qed.

(** With the operation that appends to the [functions] list in place, on a
    state whose issue record holds JSON data: the entry logged by the first
    body shows one function; the second body lengthens the very same list
    object, leaves the other list alone, and in the final log the first entry
    still reads as it was logged. *)
Lemma logged_snapshots_are_independent_witness :
  executed example_platform (mkEngine 2)
    (single_node_graph "loop" (loop_node "rec"))
    (review_world "rec" (PyCallable record_function) lint_record)
    review_run "step" (loop_node "rec")
    (call_tool example_platform (PyCallable record_function)
       (review_heap lint_record) 0).1 0 /\
  json_issues
    (call_tool example_platform (PyCallable record_function)
       (review_heap lint_record) 0).1 0 /\
  match loop_body example_platform (mkEngine 2)
          (single_node_graph "loop" (loop_node "rec"))
          (review_world "rec" (PyCallable record_function) lint_record)
          review_run "step" with
  | Continue w1 run1 =>
      match run_loop 2 example_platform (mkEngine 2)
              (single_node_graph "loop" (loop_node "rec")) w1 run1 with
      | Some r =>
          exists entry,
            log run1 = [entry] /\
            dict_get (state_snapshot entry) "functions"
              = Some (DList [DStr "f"]) /\
            dict_get (state_snapshot entry) "issues"
              = Some (DList [DDict lint_record]) /\
            str_lists (heap (result_world r)) 0 = ["f"; "f"] /\
            str_lists (heap (result_world r)) 1 = [] /\
            length (log (result_run r)) = 2%nat /\
            log (result_run r) !! 0%nat = Some entry /\
            read (heap (result_world r)) (DDict (state_snapshot entry))
              = DDict (state_snapshot entry)
      | None => False
      end
  | _ => False
  end.
Proof.
  assert (Hex : executed example_platform (mkEngine 2)
                  (single_node_graph "loop" (loop_node "rec"))
                  (review_world "rec" (PyCallable record_function) lint_record)
                  review_run "step" (loop_node "rec")
                  (call_tool example_platform (PyCallable record_function)
                     (review_heap lint_record) 0).1 0).
  { split; [reflexivity|]. split; [reflexivity|].
    exists (PyCallable record_function). split; reflexivity. }
  assert (Hjson : json_issues
                    (call_tool example_platform (PyCallable record_function)
                       (review_heap lint_record) 0).1 0).
  { intros l k v Hl Hkv. cbn in Hl.
    apply list_elem_of_singleton in Hl as ->. cbn in Hkv.
    repeat (apply elem_of_cons in Hkv as [Hkv | Hkv];
            [injection Hkv as -> ->; reflexivity|]).
    inversion Hkv. }
  split; [exact Hex|]. split; [exact Hjson|].
  destruct (logged_snapshots_are_independent _ _ _ _ _ _ _ _ _ Hex)
    as (Hlog & _ & Hlater).
  destruct (loop_body example_platform (mkEngine 2)
              (single_node_graph "loop" (loop_node "rec"))
              (review_world "rec" (PyCallable record_function) lint_record)
              review_run "step") as [w1 run1|w1 run1|w1 run1 e] eqn:Hb;
    try (vm_compute in Hb; discriminate Hb).
  cbn [body_run body_world] in Hlog, Hlater.
  specialize (Hlater 2%nat).
  assert (Hw : w1 = body_world (loop_body example_platform (mkEngine 2)
              (single_node_graph "loop" (loop_node "rec"))
              (review_world "rec" (PyCallable record_function) lint_record)
              review_run "step")) by (rewrite Hb; reflexivity).
  assert (Hrun : run1 = body_run (loop_body example_platform (mkEngine 2)
              (single_node_graph "loop" (loop_node "rec"))
              (review_world "rec" (PyCallable record_function) lint_record)
              review_run "step")) by (rewrite Hb; reflexivity).
  destruct (run_loop 2 example_platform (mkEngine 2)
              (single_node_graph "loop" (loop_node "rec")) w1 run1)
    as [r|] eqn:Hr.
  2:{ rewrite Hw, Hrun in Hr. vm_compute in Hr. discriminate Hr. }
  destruct (Hlater r eq_refl) as (Hkept & _ & Hread).
  eexists. split; [exact Hlog|].
  split; [reflexivity|]. split; [reflexivity|].
  rewrite Hw, Hrun in Hr. vm_compute in Hr. injection Hr as <-.
  split; [reflexivity|]. split; [reflexivity|]. split; [reflexivity|].
  split; [exact Hkept|]. exact (Hread Hjson).
Defined.

(** C8 as the claim words it fails when an issue record holds an object of
    another class.  The operation [count_visit] keeps the attribute [visits]
    of that object equal to [state.iteration].  The entry logged after the
    first visit shows [iteration = 1] and, at that moment, [visits = 1]; the
    second visit mutates the object, and the same entry, still first in the
    log, now shows [visits = 2]: the snapshot was no independent copy. *)
Lemma logged_snapshot_shares_objects :
  match loop_body example_platform (mkEngine 2)
          (single_node_graph "loop" (loop_node "visit"))
          (review_world "visit" (PyCallable count_visit) [("node", DObj 0)])
          review_run "step" with
  | Continue w1 run1 =>
      match run_loop 2 example_platform (mkEngine 2)
              (single_node_graph "loop" (loop_node "visit")) w1 run1 with
      | Some r =>
          exists entry logged_issues,
            log run1 = [entry] /\
            log (result_run r) !! 0%nat = Some entry /\
            dict_get (state_snapshot entry) "iteration" = Some (DInt 1) /\
            dict_get (state_snapshot entry) "issues" = Some logged_issues /\
            read (heap w1) logged_issues
              = DList [DDict [("node", DDict [("visits", DInt 1)])]] /\
            read (heap (result_world r)) logged_issues
              = DList [DDict [("node", DDict [("visits", DInt 2)])]] /\
            read (heap (result_world r)) (DDict (state_snapshot entry))
              <> read (heap w1) (DDict (state_snapshot entry))
      | None => False
      end
  | _ => False
  end.
Proof.
  vm_compute. eexists _, _.
  split; [reflexivity|]. split; [reflexivity|]. split; [reflexivity|].
  split; [reflexivity|]. split; [reflexivity|]. split; [reflexivity|].
  discriminate.
Qed.

(** * Further properties of the stores and of the engine *)

(** ** [GraphStore] and [RunStore] *)

(** X1: a saved graph is what [get] returns under its [id], replacing any
    graph saved under that [id] before; the other identifiers keep their
    graphs; an identifier never saved raises the "not found" [KeyError];
    saving touches neither the runs nor the registry.  [POST /graph/create]
    saves the graph and answers its [id]. *)
Theorem graph_store_save_get (w : World) (graph : Graph) :
  GraphStore.get (GraphStore.save w graph) (id graph) = Ok graph /\
  (forall graph2,
     id graph2 = id graph ->
     GraphStore.get (GraphStore.save (GraphStore.save w graph) graph2) (id graph)
       = Ok graph2) /\
  (forall gid,
     gid <> id graph ->
     GraphStore.get (GraphStore.save w graph) gid = GraphStore.get w gid) /\
  (forall gid,
     graph_store w !! gid = None ->
     GraphStore.get w gid
       = Raise (KeyError ("Graph '" +:+ gid +:+ "' not found"))) /\
  run_store (GraphStore.save w graph) = run_store w /\
  tool_registry (GraphStore.save w graph) = tool_registry w /\
  Api.create_graph w graph = (GraphStore.save w graph, id graph).
Proof.
  unfold Api.create_graph, GraphStore.get, GraphStore.save. simpl.
  split; [|split; [|split; [|split]]].
  - rewrite lookup_insert_eq. reflexivity.
  - intros graph2 Hid. rewrite <- Hid, lookup_insert_eq. reflexivity.
  - intros gid Hne. rewrite lookup_insert_ne by congruence. reflexivity.
  - intros gid Hnone. rewrite Hnone. reflexivity.
  - repeat split.
Qed.

(** X2: [update] stores the run under its [run_id], so that [get] returns
    it; updating twice with the same run changes nothing more; the other
    runs stay; an unknown identifier raises the "not found" [KeyError]. *)
Theorem run_store_update_get (w : World) (run : GraphRun) :
  RunStore.get (RunStore.update w run) (run_id run) = Ok run /\
  RunStore.update (RunStore.update w run) run = RunStore.update w run /\
  (forall rid,
     rid <> run_id run ->
     RunStore.get (RunStore.update w run) rid = RunStore.get w rid) /\
  (forall rid,
     run_store w !! rid = None ->
     RunStore.get w rid = Raise (KeyError ("Run '" +:+ rid +:+ "' not found"))).
Proof.
  unfold RunStore.get, RunStore.update, with_runs. simpl.
  split; [|split; [|split]].
  - rewrite lookup_insert_eq. reflexivity.
  - rewrite insert_insert_eq. reflexivity.
  - intros rid Hne. rewrite lookup_insert_ne by congruence. reflexivity.
  - intros rid Hnone. rewrite Hnone. reflexivity.
Qed.

(** ** Invariants of the loop *)

(** What every body of the loop preserves holds when the loop ends. *)
Lemma run_loop_invariant P self graph (I : World -> GraphRun -> Prop) :
  (forall w run cur,
     I w run -> current_node run = Some cur -> finished run = false ->
     I (body_world (loop_body P self graph w run cur))
       (body_run (loop_body P self graph w run cur))) ->
  forall fuel w run r,
    I w run ->
    run_loop fuel P self graph w run = Some r ->
    I (result_world r) (result_run r).
Proof.
  intros Hbody. induction fuel as [|fuel IH]; intros w run r HI Hr.
  - cbn [run_loop] in Hr.
    destruct (current_node run); [|injection Hr as <-; exact HI].
    destruct (finished run); [injection Hr as <-; exact HI | discriminate].
  - destruct (current_node run) as [cur|] eqn:Hcur.
    2:{ rewrite run_loop_idle in Hr by (left; exact Hcur).
        injection Hr as <-. exact HI. }
    destruct (finished run) eqn:Hfin.
    { rewrite run_loop_idle in Hr by (right; exact Hfin).
      injection Hr as <-. exact HI. }
    rewrite (run_loop_step _ _ _ _ _ _ cur) in Hr by assumption.
    specialize (Hbody w run cur HI Hcur Hfin).
    destruct (loop_body P self graph w run cur) as [w' run'|w' run'|w' run' e];
      simpl in Hbody.
    + exact (IH _ _ _ Hbody Hr).
    + injection Hr as <-. exact Hbody.
    + injection Hr as <-. exact Hbody.
Qed.

Lemma bookkeeping_refl P w run : bookkeeping P w run w run.
Proof.
  repeat (split; [reflexivity|]). exists []. simpl.
  rewrite app_nil_r, Nat.add_0_r. repeat split.
Qed.

Lemma bookkeeping_logged P w0 run0 w run cfg h1 st1 run' :
  bookkeeping P w0 run0 w run ->
  run_id run' = run_id run ->
  graph_id run' = graph_id run ->
  log run' = log (logged P w run cfg h1 st1) ->
  bookkeeping P w0 run0 (after_node w h1) run'.
Proof.
  intros (Hg & Ht & Hr & Hu & Hid & Hgid & new & Hlog & Hclock & Hts)
    Hid' Hgid' Hlog'.
  repeat (split; [simpl; congruence|]).
  exists (new ++ [mkEntry (name cfg) (utcnow P (clock_reads w))
                    (state_dict h1 st1)])%list.
  split; [|split].
  - rewrite Hlog'. simpl. rewrite Hlog, app_assoc. reflexivity.
  - simpl. rewrite Hclock, length_app. simpl. lia.
  - rewrite fmap_app, length_app, seq_app, fmap_app, Hts. simpl.
    rewrite Hclock. reflexivity.
Qed.

Lemma loop_body_bookkeeping P self graph w0 run0 w run cur :
  bookkeeping P w0 run0 w run ->
  bookkeeping P w0 run0 (body_world (loop_body P self graph w run cur))
                        (body_run (loop_body P self graph w run cur)).
Proof.
  intros Hb. pose proof (loop_body_outcome P self graph w run cur) as Hout.
  destruct (loop_body P self graph w run cur) as [w' run'|w' run'|w' run' e];
    simpl.
  - destruct Hout as (cfg & h1 & st1 & n & _ & _ & -> & ->).
    eapply bookkeeping_logged; [exact Hb | reflexivity..].
  - destruct Hout as [(_ & -> & ->) | (cfg & h1 & st1 & _ & _ & -> & ->)].
    + exact Hb.
    + eapply bookkeeping_logged; [exact Hb | reflexivity..].
  - destruct Hout as (_ & _ & [(-> & Hw) | (cfg & h1 & st1 & _ & _ & -> & ->)]).
    + destruct Hw as [(_ & _ & ->) | (cfg & _ & [(_ & ->) | (f & h1 & _ & _ & ->)])];
        exact Hb.
    + eapply bookkeeping_logged; [exact Hb | reflexivity..].
Qed.

Lemma run_loop_bookkeeping P self graph fuel w run r :
  run_loop fuel P self graph w run = Some r ->
  bookkeeping P w run (result_world r) (result_run r).
Proof.
  apply (run_loop_invariant P self graph (bookkeeping P w run)).
  - intros w1 run1 cur Hb _ _. apply loop_body_bookkeeping. exact Hb.
  - apply bookkeeping_refl.
Qed.

(** How the loop can end when it is entered on a node with [finished] unset:
    normally only with [finished] set, at a terminal node or with the
    iteration bound reached; by an exception only with [finished] still
    unset and the node pointer in place. *)
Lemma run_loop_end P self graph fuel :
  forall w run r,
    is_Some (current_node run) ->
    finished run = false ->
    run_loop fuel P self graph w run = Some r ->
    match r with
    | Done w' run' =>
        finished run' = true /\
        (current_node run' = None \/
         is_Some (current_node run') /\
         max_iterations self <= iteration (states (heap w') (state run')))
    | Aborted w' run' e =>
        finished run' = false /\ is_Some (current_node run')
    end.
Proof.
  induction fuel as [|fuel IH]; intros w run r [cur Hcur] Hfin Hr.
  - cbn [run_loop] in Hr. rewrite Hcur, Hfin in Hr. discriminate.
  - rewrite (run_loop_step _ _ _ _ _ _ cur) in Hr by assumption.
    pose proof (loop_body_outcome P self graph w run cur) as Hout.
    destruct (loop_body P self graph w run cur) as [w' run'|w' run'|w' run' e].
    + destruct Hout as (cfg & h1 & st1 & n & _ & _ & -> & ->).
      eapply IH; [| |exact Hr]; [eexists; reflexivity | exact Hfin].
    + injection Hr as <-.
      destruct Hout as [(Hge & -> & ->) | (cfg & h1 & st1 & _ & _ & -> & ->)].
      * split; [reflexivity|]. right. split; [|exact Hge].
        simpl. rewrite Hcur. eexists. reflexivity.
      * split; [reflexivity|]. left. reflexivity.
    + injection Hr as <-.
      destruct Hout as (_ & _ & [(-> & _) | (cfg & h1 & st1 & _ & _ & -> & ->)]).
      * split; [exact Hfin|]. rewrite Hcur. eexists. reflexivity.
      * split; [exact Hfin|]. simpl. rewrite Hcur. eexists. reflexivity.
Qed.

(** ** [run_graph] as a whole *)

Lemma run_graph_known fuel P self w gid graph st :
  graph_store w !! gid = Some graph ->
  run_graph fuel P self w gid st =
    match run_loop fuel P self graph
            (world_with_run w (new_run P w gid graph st))
            (new_run P w gid graph st) with
    | None => None
    | Some (Done w2 run') => Some (RunStore.update w2 run', Ok run')
    | Some (Aborted w2 run' e) =>
        Some (with_runs w2 (<[run_id run' := run']> (run_store w2)), Raise e)
    end.
Proof.
  intros Hg. unfold run_graph, RunStore.create, GraphStore.get. rewrite Hg.
  reflexivity.
Qed.

Lemma new_run_ready P w gid graph st :
  is_Some (current_node (new_run P w gid graph st)).
Proof. eexists. reflexivity. Qed.

Lemma run_graph_no_graph fuel P self w gid st :
  graph_store w !! gid = None ->
  run_graph fuel P self w gid st
    = Some (w, Raise (KeyError ("Graph '" +:+ gid +:+ "' not found"))).
Proof.
  intros Hg. unfold run_graph, GraphStore.get. rewrite Hg. reflexivity.
Qed.

(** X3: for a graph identifier that the graph store does not hold,
    [run_graph] raises the "not found" [KeyError] before anything else
    happens, whatever the bound on the loop: the world is unchanged (no run
    is created, no identifier drawn), and [POST /graph/run] answers 404. *)
Theorem run_graph_unknown_graph
  (fuel : nat) (P : Platform) (self : GraphEngine) (w : World) (gid : string)
  (st : loc) :
  graph_store w !! gid = None ->
  run_graph fuel P self w gid st
    = Some (w, Raise (KeyError ("Graph '" +:+ gid +:+ "' not found"))) /\
  Api.run_graph fuel P w gid st
    = Some (w, HTTPException 404
                 (KeyError ("Graph '" +:+ gid +:+ "' not found"))).
Proof.
  intros Hg. unfold Api.run_graph.
  rewrite !run_graph_no_graph by exact Hg. split; reflexivity.
Qed.

Lemma run_graph_unknown_graph_witness :
  run_graph 0 example_platform default_engine
    (example_world (graphs_of two_step_graph) keep_tools) "nowhere" 0
  = Some (example_world (graphs_of two_step_graph) keep_tools,
          Raise (KeyError "Graph 'nowhere' not found")).
Proof.
  apply (run_graph_unknown_graph 0 example_platform default_engine
           (example_world (graphs_of two_step_graph) keep_tools) "nowhere" 0).
  reflexivity.
Defined.

(** X4: a run that [run_graph] returns is always finished; it carries the
    identifier drawn for it and the graph identifier asked for, and the run
    store holds exactly this run under that identifier.  It ended either at
    a node without successor ([current_node] is [None]) or on the guard, in
    which case the node pointer is still set and the state has reached the
    iteration bound. *)
Theorem run_graph_returns_finished_run
  (fuel : nat) (P : Platform) (self : GraphEngine) (w w' : World)
  (gid : string) (st : loc) (run : GraphRun) :
  run_graph fuel P self w gid st = Some (w', Ok run) ->
  finished run = true /\
  run_id run = uuid4 P (uuid_draws w) /\
  graph_id run = gid /\
  RunStore.get w' (run_id run) = Ok run /\
  (current_node run = None \/
   is_Some (current_node run) /\
   max_iterations self <= iteration (states (heap w') (state run))).
Proof.
  intros Hrun.
  destruct (graph_store w !! gid) as [graph|] eqn:Hg.
  2:{ rewrite run_graph_no_graph in Hrun by exact Hg. discriminate. }
  rewrite (run_graph_known _ _ _ _ _ _ _ Hg) in Hrun.
  destruct (run_loop fuel P self graph _ _) as [[w2 run'|w2 run' e]|] eqn:Hloop;
    try discriminate.
  injection Hrun as <- <-.
  pose proof (run_loop_bookkeeping _ _ _ _ _ _ _ Hloop)
    as (_ & _ & _ & _ & Hid & Hgid & _).
  pose proof (run_loop_end _ _ _ _ _ _ _ (new_run_ready _ _ _ _ _) eq_refl Hloop)
    as (Hfin & Hend).
  simpl in Hid, Hgid.
  repeat split; try assumption.
  unfold RunStore.get, RunStore.update. simpl.
  rewrite lookup_insert_eq. reflexivity.
Qed.

Lemma run_graph_returns_finished_run_witness :
  exists w' run,
    run_graph 3 example_platform default_engine
      (example_world (graphs_of two_step_graph) keep_tools) "pair" 0
    = Some (w', Ok run) /\
    finished run = true /\
    RunStore.get w' (run_id run) = Ok run.
Proof.
  destruct (run_graph 3 example_platform default_engine
              (example_world (graphs_of two_step_graph) keep_tools) "pair" 0)
    as [[w' [run|e]]|] eqn:Hrun;
    [| vm_compute in Hrun; discriminate Hrun..].
  exists w', run. split; [reflexivity|].
  destruct (run_graph_returns_finished_run _ _ _ _ _ _ _ _ Hrun)
    as (Hfin & _ & _ & Hget & _).
  split; assumption.
Defined.

(** X5: when [run_graph] ends with an exception although the graph is known,
    the run it created is in the run store under the identifier drawn for it,
    for the graph asked for, with [finished] unset and the node pointer on
    the node at which the exception arose. *)
Theorem run_graph_abort_leaves_unfinished_run
  (fuel : nat) (P : Platform) (self : GraphEngine) (w w' : World)
  (gid : string) (st : loc) (graph : Graph) (e : exn) :
  graph_store w !! gid = Some graph ->
  run_graph fuel P self w gid st = Some (w', Raise e) ->
  exists run,
    RunStore.get w' (uuid4 P (uuid_draws w)) = Ok run /\
    graph_id run = gid /\
    finished run = false /\
    is_Some (current_node run).
Proof.
  intros Hg Hrun. rewrite (run_graph_known _ _ _ _ _ _ _ Hg) in Hrun.
  destruct (run_loop fuel P self graph _ _) as [[w2 run'|w2 run' e']|] eqn:Hloop;
    try discriminate.
  injection Hrun as <- <-.
  pose proof (run_loop_bookkeeping _ _ _ _ _ _ _ Hloop)
    as (_ & _ & _ & _ & Hid & Hgid & _).
  pose proof (run_loop_end _ _ _ _ _ _ _ (new_run_ready _ _ _ _ _) eq_refl Hloop)
    as (Hfin & Hcur).
  simpl in Hid, Hgid. exists run'. rewrite <- Hid.
  repeat split; try assumption.
  unfold RunStore.get. simpl. rewrite lookup_insert_eq. reflexivity.
Qed.

Lemma run_graph_abort_leaves_unfinished_run_witness :
  match run_graph 3 example_platform default_engine
          (example_world (graphs_of (single_node_graph "g" dangling_node))
                         keep_tools) "g" 0 with
  | Some (w', Raise e) =>
      exists run,
        RunStore.get w' "0" = Ok run /\
        finished run = false /\
        is_Some (current_node run)
  | _ => False
  end.
Proof.
  destruct (run_graph 3 example_platform default_engine
              (example_world (graphs_of (single_node_graph "g" dangling_node))
                 keep_tools) "g" 0)
    as [[w' [run|e]]|] eqn:Hrun;
    [vm_compute in Hrun; discriminate Hrun | | vm_compute in Hrun; discriminate Hrun].
  destruct (run_graph_abort_leaves_unfinished_run 3 example_platform
              default_engine
              (example_world (graphs_of (single_node_graph "g" dangling_node))
                 keep_tools)
              w' "g" 0 (single_node_graph "g" dangling_node) e eq_refl Hrun)
    as (run & Hget & _ & Hfin & Hcur).
  exists run. split; [exact Hget|]. split; assumption.
Defined.

(** X6: [run_graph] changes neither the graph store nor the registry, draws
    at most one identifier, and writes to the run store under that
    identifier only: every other run is as it was. *)
Theorem run_graph_frame
  (fuel : nat) (P : Platform) (self : GraphEngine) (w w' : World)
  (gid : string) (st : loc) (r : result GraphRun) :
  run_graph fuel P self w gid st = Some (w', r) ->
  graph_store w' = graph_store w /\
  tool_registry w' = tool_registry w /\
  (uuid_draws w <= uuid_draws w' <= S (uuid_draws w))%nat /\
  (forall rid,
     rid <> uuid4 P (uuid_draws w) ->
     run_store w' !! rid = run_store w !! rid).
Proof.
  intros Hrun.
  destruct (graph_store w !! gid) as [graph|] eqn:Hg.
  2:{ rewrite run_graph_no_graph in Hrun by exact Hg.
      injection Hrun as <- _. repeat split; lia. }
  rewrite (run_graph_known _ _ _ _ _ _ _ Hg) in Hrun.
  destruct (run_loop fuel P self graph _ _) as [res|] eqn:Hloop;
    [|discriminate].
  pose proof (run_loop_bookkeeping _ _ _ _ _ _ _ Hloop)
    as (Hgs & Hts & Hrs & Hu & Hid & _).
  assert (Hw' : graph_store w' = graph_store (result_world res) /\
                tool_registry w' = tool_registry (result_world res) /\
                uuid_draws w' = uuid_draws (result_world res) /\
                run_store w' = <[run_id (result_run res) := result_run res]>
                                 (run_store (result_world res))).
  { destruct res as [w2 run'|w2 run' e]; injection Hrun as <- _;
      repeat split. }
  destruct Hw' as (-> & -> & -> & ->).
  rewrite Hgs, Hts, Hu, Hrs, Hid. simpl.
  repeat split; try lia.
  intros rid Hne. rewrite !lookup_insert_ne by congruence. reflexivity.
Qed.

Lemma run_graph_frame_witness :
  match run_graph 3 example_platform default_engine
          (example_world (graphs_of two_step_graph) keep_tools) "pair" 0 with
  | Some (w', _) =>
      graph_store w' = graphs_of two_step_graph /\ tool_registry w' = keep_tools
  | None => False
  end.
Proof.
  destruct (run_graph 3 example_platform default_engine
              (example_world (graphs_of two_step_graph) keep_tools) "pair" 0)
    as [[w' r]|] eqn:Hrun; [|vm_compute in Hrun; discriminate Hrun].
  destruct (run_graph_frame _ _ _ _ _ _ _ _ Hrun) as (Hg & Ht & _).
  split; assumption.
Defined.

(** X7: the log of a returned run is stamped with consecutive readings of
    the clock, one reading per entry, starting with the first reading not
    yet taken; so when the clock never runs backwards the timestamps never
    decrease along the log. *)
Theorem log_timestamps_follow_the_clock
  (fuel : nat) (P : Platform) (self : GraphEngine) (w w' : World)
  (gid : string) (st : loc) (run : GraphRun) :
  run_graph fuel P self w gid st = Some (w', Ok run) ->
  timestamp <$> log run
    = utcnow P <$> seq (clock_reads w) (length (log run)) /\
  clock_reads w' = (clock_reads w + length (log run))%nat /\
  (clock_monotone P ->
   forall i j ei ej,
     (i <= j)%nat ->
     log run !! i = Some ei ->
     log run !! j = Some ej ->
     timestamp ei <= timestamp ej).
Proof.
  intros Hrun.
  destruct (graph_store w !! gid) as [graph|] eqn:Hg.
  2:{ rewrite run_graph_no_graph in Hrun by exact Hg. discriminate. }
  rewrite (run_graph_known _ _ _ _ _ _ _ Hg) in Hrun.
  destruct (run_loop fuel P self graph _ _) as [[w2 run'|w2 run' e]|] eqn:Hloop;
    try discriminate.
  injection Hrun as <- <-.
  pose proof (run_loop_bookkeeping _ _ _ _ _ _ _ Hloop)
    as (_ & _ & _ & _ & _ & _ & new & Hlog & Hclock & Hts).
  simpl in Hlog, Hclock, Hts. subst new.
  assert (Hstamp : timestamp <$> log run'
                   = utcnow P <$> seq (clock_reads w) (length (log run')))
    by exact Hts.
  split; [exact Hstamp|]. split; [exact Hclock|].
  intros Hmono i j ei ej Hij Hi Hj.
  assert (Hti : (timestamp <$> log run') !! i = Some (timestamp ei))
    by (rewrite list_lookup_fmap, Hi; reflexivity).
  assert (Htj : (timestamp <$> log run') !! j = Some (timestamp ej))
    by (rewrite list_lookup_fmap, Hj; reflexivity).
  rewrite Hstamp, list_lookup_fmap in Hti, Htj.
  apply lookup_lt_Some in Hi, Hj.
  rewrite lookup_seq_lt in Hti by exact Hi.
  rewrite lookup_seq_lt in Htj by exact Hj.
  simpl in Hti, Htj. injection Hti as <-. injection Htj as <-.
  apply Hmono. lia.
Qed.

Lemma log_timestamps_follow_the_clock_witness :
  match run_graph 3 example_platform default_engine
          (example_world (graphs_of two_step_graph) keep_tools) "pair" 0 with
  | Some (w', Ok run) => timestamp <$> log run = [0; 1] /\ clock_reads w' = 2%nat
  | _ => False
  end.
Proof.
  destruct (run_graph 3 example_platform default_engine
              (example_world (graphs_of two_step_graph) keep_tools) "pair" 0)
    as [[w' [run|e]]|] eqn:Hrun;
    [| vm_compute in Hrun; discriminate Hrun..].
  destruct (log_timestamps_follow_the_clock _ _ _ _ _ _ _ _ Hrun)
    as (Hts & Hclock & _).
  vm_compute in Hrun. injection Hrun as <- <-.
  split; [exact Hts | exact Hclock].
Defined.

(** X8: started on a state that has already reached the iteration bound,
    [run_graph] executes nothing: it returns a finished run with an empty
    log whose node pointer is still the start node, takes no clock reading
    and leaves the heap as it was. *)
Theorem run_graph_at_the_bound
  (fuel : nat) (P : Platform) (self : GraphEngine) (w : World) (gid : string)
  (graph : Graph) (st : loc) :
  graph_store w !! gid = Some graph ->
  max_iterations self <= iteration (states (heap w) st) ->
  (0 < fuel)%nat ->
  exists w' run,
    run_graph fuel P self w gid st = Some (w', Ok run) /\
    log run = [] /\
    finished run = true /\
    current_node run = Some (start_node graph) /\
    state run = st /\
    heap w' = heap w /\
    clock_reads w' = clock_reads w.
Proof.
  intros Hg Hge Hfuel. destruct fuel as [|fuel]; [lia|].
  rewrite (run_graph_known _ _ _ _ _ _ _ Hg).
  rewrite (run_loop_step _ _ _ _ _ _ (start_node graph)) by reflexivity.
  rewrite loop_body_guard by exact Hge.
  eexists _, _. split; [reflexivity|]. repeat split.
Qed.

Lemma run_graph_at_the_bound_witness :
  exists w' run,
    run_graph 1 example_platform (mkEngine 0)
      (example_world (graphs_of two_step_graph) keep_tools) "pair" 0
    = Some (w', Ok run) /\
    log run = [] /\
    finished run = true /\
    current_node run = Some "first".
Proof.
  destruct (run_graph_at_the_bound 1 example_platform (mkEngine 0)
              (example_world (graphs_of two_step_graph) keep_tools) "pair"
              two_step_graph 0 eq_refl)
    as (w' & run & Hrun & Hlog & Hfin & Hcur & _).
  - simpl. lia.
  - lia.
  - exists w', run. repeat split; assumption.
Defined.

(** X9: the engine itself never writes to the heap of states: a property of
    the heap that every call of a registered operation preserves (with the
    conversion of its result) still holds of the heap when [run_graph] ends,
    with a run or with an exception. *)
Theorem run_graph_preserves_heap_invariant
  (fuel : nat) (P : Platform) (self : GraphEngine) (w w' : World)
  (gid : string) (st : loc) (r : result GraphRun) (Inv : Heap -> Prop) :
  operations_preserve P w Inv ->
  Inv (heap w) ->
  run_graph fuel P self w gid st = Some (w', r) ->
  Inv (heap w').
Proof.
  intros Hops Hinv Hrun.
  destruct (graph_store w !! gid) as [graph|] eqn:Hg.
  2:{ rewrite run_graph_no_graph in Hrun by exact Hg.
      injection Hrun as <- _. exact Hinv. }
  rewrite (run_graph_known _ _ _ _ _ _ _ Hg) in Hrun.
  destruct (run_loop fuel P self graph _ _) as [res|] eqn:Hloop;
    [|discriminate].
  assert (Hres : tool_registry (result_world res) = tool_registry w /\
                 Inv (heap (result_world res))).
  { apply (run_loop_invariant P self graph
             (fun w1 _ => tool_registry w1 = tool_registry w /\ Inv (heap w1))
             ) in Hloop; [exact Hloop| |split; [reflexivity | exact Hinv]].
    intros w1 run1 cur [Ht1 Hinv1] _ _.
    pose proof (loop_body_outcome P self graph w1 run1 cur) as Hout.
    destruct (loop_body P self graph w1 run1 cur)
      as [w2 run2|w2 run2|w2 run2 e]; simpl.
    - destruct Hout as (cfg & h1 & st1 & n & Hex & _ & -> & _).
      destruct Hex as (_ & _ & func & Hf & Hcall). rewrite Ht1 in Hf.
      split; [exact Ht1 | exact (Hops _ _ _ _ _ _ Hf Hcall Hinv1)].
    - destruct Hout as [(_ & -> & _) | (cfg & h1 & st1 & Hex & _ & -> & _)].
      + split; assumption.
      + destruct Hex as (_ & _ & func & Hf & Hcall). rewrite Ht1 in Hf.
        split; [exact Ht1 | exact (Hops _ _ _ _ _ _ Hf Hcall Hinv1)].
    - destruct Hout as (_ & _ & [(_ & Hw) | (cfg & h1 & st1 & Hex & _ & -> & _)]).
      + destruct Hw as [(_ & _ & ->) | (cfg & _ & [(_ & ->) | (f & h1 & Hf & Hcall & ->)])];
          try (split; assumption).
        rewrite Ht1 in Hf.
        split; [exact Ht1 | exact (Hops _ _ _ _ _ _ Hf Hcall Hinv1)].
      + destruct Hex as (_ & _ & func & Hf & Hcall). rewrite Ht1 in Hf.
        split; [exact Ht1 | exact (Hops _ _ _ _ _ _ Hf Hcall Hinv1)]. }
  destruct Hres as [_ Hres].
  destruct res as [w2 run'|w2 run' e]; injection Hrun as <- _; exact Hres.
Qed.

Lemma run_graph_preserves_heap_invariant_witness :
  match run_graph 3 example_platform (mkEngine 2)
          (loop_world "inc" (PyCallable bump_iteration)) "loop" 0 with
  | Some (w', _) => str_lists (heap w') 0 = []
  | None => False
  end.
Proof.
  destruct (run_graph 3 example_platform (mkEngine 2)
              (loop_world "inc" (PyCallable bump_iteration)) "loop" 0)
    as [[w' r]|] eqn:Hrun; [|vm_compute in Hrun; discriminate Hrun].
  apply (run_graph_preserves_heap_invariant _ _ _ _ _ _ _ _
           (fun h => str_lists h 0%nat = [])) in Hrun;
    [exact Hrun| |reflexivity].
  intros name func h st h' r' Hl Hcall Hinv. cbn in Hl.
  apply lookup_singleton_Some in Hl as [_ <-].
  unfold call_tool, bump_iteration in Hcall. injection Hcall as <- _.
  exact Hinv.
Defined.

(** ** More on the branch decision *)

(** X10: the branch decision never invents a node: whenever it returns, the
    result is the node's [next_node], its [next_on_success] or its
    [next_on_failure]. *)
Theorem decide_next_node_returns_an_edge
  (h : Heap) (cfg : NodeConfig) (st : loc) (n : option string) :
  _decide_next_node h cfg st = Ok n ->
  n = next_node cfg \/ n = next_on_success cfg \/ n = next_on_failure cfg.
Proof.
  unfold _decide_next_node.
  destruct (negb (truthy (condition_key cfg))).
  { intros [= <-]. left. reflexivity. }
  destruct (getattr h st _) as [v|]; [|discriminate].
  destruct (condition_op cfg) as [op|]; [|intros [= <-]; left; reflexivity].
  destruct (condition_value cfg) as [target|];
    [|intros [= <-]; left; reflexivity].
  destruct (evaluate_condition op v target) as [[|]|e]; simpl.
  - intros [= <-]. right. left. reflexivity.
  - unfold or_else. destruct (truthy (next_on_failure cfg)); intros [= <-].
    + right. right. reflexivity.
    + left. reflexivity.
  - discriminate.
Qed.

Lemma decide_next_node_returns_an_edge_witness :
  Some "done" = next_node (threshold_node "quality_score" None) \/
  Some "done" = next_on_success (threshold_node "quality_score" None) \/
  Some "done" = next_on_failure (threshold_node "quality_score" None).
Proof.
  apply (decide_next_node_returns_an_edge (heap_with_quality 0.9)
           (threshold_node "quality_score" None) 0 (Some "done")).
  reflexivity.
Defined.

(** X11: on a field that holds no number (a string, a list or a dict), the
    operator [==] raises nothing and counts as false, so the decision takes
    the failure route; each of the four ordering operators raises a
    [TypeError]. *)
Theorem decide_next_node_on_non_numeric_field
  (h : Heap) (cfg : NodeConfig) (st : loc) (field op : string) (v : value)
  (target : float) :
  condition_key cfg = Some field ->
  getattr h st field = Some v ->
  is_numeric v = false ->
  condition_op cfg = Some op ->
  op ∈ condition_ops ->
  condition_value cfg = Some target ->
  _decide_next_node h cfg st =
    if String.eqb op "==" then
      Ok (if truthy (next_on_failure cfg) then next_on_failure cfg
          else next_node cfg)
    else Raise (TypeError "ordering not supported between these types").
Proof.
  intros Hk Hget Hnum Hop Hin Hval. unfold _decide_next_node.
  rewrite Hk, (getattr_truthy _ _ _ _ Hget). simpl.
  rewrite Hget, Hop, Hval.
  unfold condition_ops in Hin.
  repeat (apply elem_of_cons in Hin as [-> | Hin];
          [destruct v; try discriminate Hnum; reflexivity|]).
  apply elem_of_nil in Hin. destruct Hin.
Qed.

Lemma decide_next_node_on_non_numeric_field_witness :
  _decide_next_node (heap_with_quality 0.9) (threshold_node "functions" None) 0
  = Raise (TypeError "ordering not supported between these types").
Proof.
  apply (decide_next_node_on_non_numeric_field (heap_with_quality 0.9)
           (threshold_node "functions" None) 0 "functions" ">="
           (VList 0) 0.8%float); try reflexivity.
  unfold condition_ops. rewrite elem_of_cons. left. reflexivity.
Defined.

Lemma compare_with_nan (x y : float) :
  Prim2SF x = S754_nan \/ Prim2SF y = S754_nan ->
  PrimFloat.leb x y = false /\ PrimFloat.ltb x y = false /\
  PrimFloat.eqb x y = false.
Proof.
  intros Hnan.
  rewrite FloatAxioms.leb_spec, FloatAxioms.ltb_spec, FloatAxioms.eqb_spec.
  unfold SFleb, SFltb, SFeqb, SFcompare.
  destruct Hnan as [-> | ->]; [repeat split|].
  destruct (Prim2SF x) as [[]|[]| |[] ? ?]; repeat split.
Qed.

Lemma int_float_compare_nan z target :
  Prim2SF target = S754_nan -> int_float_compare z target = FNotComparable.
Proof. intros Hnan. unfold int_float_compare. rewrite Hnan. reflexivity. Qed.

(** X12: a NaN never passes a condition.  When the field value or the
    threshold is a NaN, each of the five operators counts as false and the
    decision takes the failure route. *)
Theorem decide_next_node_with_nan
  (h : Heap) (cfg : NodeConfig) (st : loc) (field op : string) (v : value)
  (target : float) :
  condition_key cfg = Some field ->
  getattr h st field = Some v ->
  is_numeric v = true ->
  condition_op cfg = Some op ->
  condition_value cfg = Some target ->
  (exists q, v = VFloat q /\ Prim2SF q = S754_nan) \/
  Prim2SF target = S754_nan ->
  _decide_next_node h cfg st =
    Ok (if truthy (next_on_failure cfg) then next_on_failure cfg
        else next_node cfg).
Proof.
  intros Hk Hget Hnum Hop Hval Hnan. unfold _decide_next_node.
  rewrite Hk, (getattr_truthy _ _ _ _ Hget). simpl.
  rewrite Hget, Hop, Hval.
  assert (Hev : evaluate_condition op v target = Ok false).
  { unfold evaluate_condition, py_ge, py_gt, py_le, py_lt, py_eq.
    destruct v as [s|z|q|l|l]; try discriminate Hnum.
    - destruct Hnan as [(q & [=] & _) | Hnan].
      rewrite (int_float_compare_nan _ _ Hnan).
      repeat (case String.eqb; [reflexivity|]). reflexivity.
    - assert (Hq : Prim2SF q = S754_nan \/ Prim2SF target = S754_nan).
      { destruct Hnan as [(q' & [= <-] & Hq) | Ht]; [left | right]; assumption. }
      assert (Hq' : Prim2SF target = S754_nan \/ Prim2SF q = S754_nan)
        by tauto.
      destruct (compare_with_nan q target Hq) as (-> & -> & ->).
      destruct (compare_with_nan target q Hq') as (-> & -> & _).
      repeat (case String.eqb; [reflexivity|]). reflexivity. }
  rewrite Hev. reflexivity.
Qed.

Lemma decide_next_node_with_nan_witness :
  _decide_next_node (heap_with_quality nan)
    (threshold_node "quality_score" (Some "again")) 0 = Ok (Some "again").
Proof.
  apply (decide_next_node_with_nan (heap_with_quality nan)
           (threshold_node "quality_score" (Some "again")) 0 "quality_score"
           ">=" (VFloat nan) 0.8%float); try reflexivity.
  left. exists nan. split; reflexivity.
Defined.

(** ** The registry holds callables *)

(** X13: [register] keeps the registry free of objects that cannot be
    called: if every registered object is callable before a call of
    [register], whether it succeeds or raises, every registered object is
    callable after it, and so is whatever [get] returns then. *)
Theorem register_keeps_registry_callable
  (w : World) (name : string) (func : pyobject) :
  registry_callable w ->
  registry_callable (ToolRegistry.register w name func).1 /\
  (forall other found,
     ToolRegistry.get (ToolRegistry.register w name func).1 other = Ok found ->
     callable found = true).
Proof.
  intros Hinv.
  assert (Hreg : registry_callable (ToolRegistry.register w name func).1).
  { unfold ToolRegistry.register.
    destruct (callable func) eqn:Hc; simpl; [|exact Hinv].
    intros other found. simpl.
    destruct (decide (other = name)) as [->|Hne].
    - rewrite lookup_insert_eq. intros [= <-]. exact Hc.
    - rewrite lookup_insert_ne by congruence. apply Hinv. }
  split; [exact Hreg|].
  intros other found. unfold ToolRegistry.get.
  destruct (tool_registry _ !! other) as [f|] eqn:Hl; [|discriminate].
  intros [= <-]. exact (Hreg _ _ Hl).
Qed.

Lemma register_keeps_registry_callable_witness :
  registry_callable
    (ToolRegistry.register (example_world ∅ ∅) "inc" (PyData DNone)).1.
Proof.
  apply (register_keeps_registry_callable (example_world ∅ ∅) "inc"
           (PyData DNone)).
  intros name func Hl. cbn in Hl. rewrite lookup_empty in Hl. discriminate.
Defined.


(** ** The default workflow *)

Lemma run_loop_executes_next fuel P self graph w run cur cfg func h1 st1 n :
  current_node run = Some cur ->
  finished run = false ->
  iteration (states (heap w) (state run)) < max_iterations self ->
  nodes graph !! cur = Some cfg ->
  tool_registry w !! tool cfg = Some func ->
  call_tool P func (heap w) (state run) = (h1, Ok st1) ->
  _decide_next_node h1 cfg st1 = Ok (Some n) ->
  run_loop (S fuel) P self graph w run =
    run_loop fuel P self graph (after_node w h1)
      (set_current_node (logged P w run cfg h1 st1) (Some n)).
Proof.
  intros Hcur Hfin Hlt Hn Ht Hcall Hdec.
  rewrite (run_loop_step _ _ _ _ _ _ cur) by assumption.
  rewrite (loop_body_executes P self graph w run cur cfg func h1 st1 (Some n))
    by assumption.
  reflexivity.
Qed.

Lemma run_loop_executes_last fuel P self graph w run cur cfg func h1 st1 :
  current_node run = Some cur ->
  finished run = false ->
  iteration (states (heap w) (state run)) < max_iterations self ->
  nodes graph !! cur = Some cfg ->
  tool_registry w !! tool cfg = Some func ->
  call_tool P func (heap w) (state run) = (h1, Ok st1) ->
  _decide_next_node h1 cfg st1 = Ok None ->
  run_loop (S fuel) P self graph w run =
    Some (Done (after_node w h1)
            (set_finished (set_current_node (logged P w run cfg h1 st1) None))).
Proof.
  intros Hcur Hfin Hlt Hn Ht Hcall Hdec.
  rewrite (run_loop_step _ _ _ _ _ _ cur) by assumption.
  rewrite (loop_body_executes P self graph w run cur cfg func h1 st1 None)
    by assumption.
  reflexivity.
Qed.

Lemma startup_ready T w : code_review_ready T (startup T w).
Proof.
  unfold code_review_ready, startup, create_default_code_review_graph,
    register_code_review_tools, GraphStore.save, ToolRegistry.register.
  simpl. split; [apply lookup_insert_eq|].
  repeat split;
    repeat (rewrite lookup_insert_ne by discriminate);
    apply lookup_insert_eq.
Qed.

Lemma run_graph_keeps_setup fuel P self w gid st w' r :
  run_graph fuel P self w gid st = Some (w', r) ->
  graph_store w' = graph_store w /\ tool_registry w' = tool_registry w.
Proof.
  intros Hrun.
  destruct (graph_store w !! gid) as [graph|] eqn:Hg.
  2:{ rewrite run_graph_no_graph in Hrun by exact Hg.
      injection Hrun as <- _. split; reflexivity. }
  rewrite (run_graph_known _ _ _ _ _ _ _ Hg) in Hrun.
  destruct (run_loop fuel P self graph _ _) as [res|] eqn:Hloop;
    [|discriminate].
  pose proof (run_loop_bookkeeping _ _ _ _ _ _ _ Hloop) as (Hgs & Hts & _).
  destruct res as [w2 run'|w2 run' e]; injection Hrun as <- _;
    split; assumption.
Qed.

Lemma code_review_ready_kept T fuel P self w gid st w' r :
  code_review_ready T w ->
  run_graph fuel P self w gid st = Some (w', r) ->
  code_review_ready T w'.
Proof.
  intros Hready Hrun.
  destruct (run_graph_keeps_setup _ _ _ _ _ _ _ _ Hrun) as [Hg Ht].
  unfold code_review_ready. rewrite Hg, Ht. exact Hready.
Qed.

(** The default graph below the bound, with operations of which the three
    analyses return a state with the iteration they got and
    [suggest_improvements] returns one with the iteration raised by one. *)
Lemma default_graph_run fuel P T w st :
  code_review_ready T w ->
  keeps_iteration (extract_functions T) ->
  keeps_iteration (check_complexity T) ->
  keeps_iteration (detect_basic_issues T) ->
  increments_iteration (suggest_improvements T) ->
  iteration (states (heap w) st) < 20 ->
  (4 <= fuel)%nat ->
  exists w' run,
    run_graph fuel P default_engine w "code_review_default" st
      = Some (w', Ok run) /\
    node <$> log run = ["extract"; "complexity"; "issues"; "suggest"] /\
    finished run = true /\
    current_node run = None /\
    iteration (states (heap w') (state run))
      = iteration (states (heap w) st) + 1.
Proof.
  intros (Hg & Te & Tc & Td & Ts) Hke Hkc Hkd Hinc Hlt Hfuel.
  do 4 (destruct fuel as [|fuel]; [lia|]).
  rewrite (run_graph_known _ _ _ _ _ _ _ Hg).
  destruct (Hke (heap w) st) as (h1 & s1 & Hf1 & Hi1).
  erewrite (run_loop_executes_next _ _ _ _ _ _ "extract" _ _ h1 s1 "complexity");
    [| reflexivity | reflexivity | exact Hlt | reflexivity | exact Te
     | apply call_tool_returns_state; exact Hf1 | reflexivity].
  destruct (Hkc h1 s1) as (h2 & s2 & Hf2 & Hi2).
  erewrite (run_loop_executes_next _ _ _ _ _ _ "complexity" _ _ h2 s2 "issues");
    [| reflexivity | reflexivity | simpl; unfold default_engine; simpl; lia
     | reflexivity | exact Tc
     | apply call_tool_returns_state; exact Hf2 | reflexivity].
  destruct (Hkd h2 s2) as (h3 & s3 & Hf3 & Hi3).
  erewrite (run_loop_executes_next _ _ _ _ _ _ "issues" _ _ h3 s3 "suggest");
    [| reflexivity | reflexivity | simpl; unfold default_engine; simpl; lia
     | reflexivity | exact Td
     | apply call_tool_returns_state; exact Hf3 | reflexivity].
  destruct (Hinc h3 s3) as (h4 & s4 & Hf4 & Hi4).
  erewrite (run_loop_executes_last _ _ _ _ _ _ "suggest" suggest_node _ h4 s4);
    [| reflexivity | reflexivity | simpl; unfold default_engine; simpl; lia
     | reflexivity | exact Ts
     | apply call_tool_returns_state; exact Hf4
     | apply suggest_node_ends_the_run].
  eexists _, _. split; [reflexivity|]. simpl.
  repeat split. lia.
Qed.

(** X14: the module-level set-up registers the four operations and stores
    the default graph, and on a world so prepared, with the three analyses
    leaving [iteration] alone and [suggest_improvements] adding one to it (as
    the operations of the workflow do), a run of the default graph from below
    the bound executes extract, complexity, issues and suggest, in this
    order, and then stops whatever the quality score: the run is finished,
    has no current node, and the iteration has grown by one. *)
Theorem default_graph_stops_after_suggest
  (P : Platform) (T : CodeReviewTools) (w0 : World) :
  code_review_ready T (startup T w0) /\
  (forall fuel w st,
     code_review_ready T w ->
     keeps_iteration (extract_functions T) ->
     keeps_iteration (check_complexity T) ->
     keeps_iteration (detect_basic_issues T) ->
     increments_iteration (suggest_improvements T) ->
     iteration (states (heap w) st) < 20 ->
     (4 <= fuel)%nat ->
     exists w' run,
       run_graph fuel P default_engine w "code_review_default" st
         = Some (w', Ok run) /\
       node <$> log run = ["extract"; "complexity"; "issues"; "suggest"] /\
       finished run = true /\
       current_node run = None /\
       iteration (states (heap w') (state run))
         = iteration (states (heap w) st) + 1).
Proof.
  split; [apply startup_ready|].
  intros fuel w st Hready Hke Hkc Hkd Hinc Hlt Hfuel.
  apply (default_graph_run fuel P T w st); assumption.
Qed.

Lemma default_graph_stops_after_suggest_witness :
  exists w' run,
    run_graph 4 example_platform default_engine
      (startup example_tools (example_world ∅ ∅)) "code_review_default" 0
    = Some (w', Ok run) /\
    node <$> log run = ["extract"; "complexity"; "issues"; "suggest"] /\
    current_node run = None.
Proof.
  destruct (default_graph_stops_after_suggest example_platform example_tools
              (example_world ∅ ∅)) as [Hready Hrun].
  destruct (Hrun 4%nat (startup example_tools (example_world ∅ ∅)) 0%nat Hready
              keep_state_keeps_iteration keep_state_keeps_iteration
              keep_state_keeps_iteration bump_iteration_increments)
    as (w' & run & Heq & Hlog & _ & Hcur & _).
  - reflexivity.
  - lia.
  - exists w', run. repeat split; assumption.
Defined.

(** ** The HTTP handlers *)

Lemma run_graph_ok_stored fuel P self w gid st w' run :
  run_graph fuel P self w gid st = Some (w', Ok run) ->
  RunStore.get w' (run_id run) = Ok run /\
  finished run = true /\
  graph_id run = gid.
Proof.
  intros Hrun.
  destruct (graph_store w !! gid) as [graph|] eqn:Hg.
  2:{ rewrite run_graph_no_graph in Hrun by exact Hg. discriminate. }
  rewrite (run_graph_known _ _ _ _ _ _ _ Hg) in Hrun.
  destruct (run_loop fuel P self graph _ _) as [[w2 run'|w2 run' e]|] eqn:Hloop;
    try discriminate.
  injection Hrun as <- <-.
  pose proof (run_loop_bookkeeping _ _ _ _ _ _ _ Hloop)
    as (_ & _ & _ & _ & _ & Hgid & _).
  pose proof (run_loop_end _ _ _ _ _ _ _ (new_run_ready _ _ _ _ _) eq_refl Hloop)
    as (Hfin & _).
  split; [|split; assumption].
  unfold RunStore.get, RunStore.update. simpl.
  rewrite lookup_insert_eq. reflexivity.
Qed.

(** X15: what [POST /graph/run] answered for a run is what
    [GET /graph/state/{run_id}] answers for it afterwards, field by field
    (identifiers, node pointer, final state and log), and the run it reports
    is finished and belongs to the graph asked for. *)
Theorem run_then_get_graph_state
  (fuel : nat) (P : Platform) (w w' : World) (gid : string) (st : loc)
  (resp : GraphRunResponse.t) :
  Api.run_graph fuel P w gid st = Some (w', Body resp) ->
  Api.get_graph_state w' (GraphRunResponse.run_id resp) = Body resp /\
  GraphRunResponse.finished resp = true /\
  GraphRunResponse.graph_id resp = gid.
Proof.
  unfold Api.run_graph, Api.get_graph_state.
  destruct (run_graph fuel P default_engine w gid st)
    as [[w1 [run|e]]|] eqn:Hrun; [| destruct e; discriminate | discriminate].
  intros [= <- <-].
  destruct (run_graph_ok_stored _ _ _ _ _ _ _ _ Hrun) as (Hget & Hfin & Hgid).
  simpl. rewrite Hget. repeat split; assumption.
Qed.

Lemma run_then_get_graph_state_witness :
  match Api.run_graph 3 example_platform
          (example_world (graphs_of two_step_graph) keep_tools) "pair" 0 with
  | Some (w', Body resp) =>
      Api.get_graph_state w' (GraphRunResponse.run_id resp) = Body resp
  | _ => False
  end.
Proof.
  destruct (Api.run_graph 3 example_platform
              (example_world (graphs_of two_step_graph) keep_tools) "pair" 0)
    as [[w' [resp|code e|e]]|] eqn:Hrun;
    [| vm_compute in Hrun; discriminate Hrun..].
  exact (proj1 (run_then_get_graph_state _ _ _ _ _ _ _ Hrun)).
Defined.

(** X16: when the operation of the first node raises, [POST /graph/run]
    answers 404 if the exception is a [KeyError], exactly as for a missing
    graph, and lets any other exception through uncaught.  Either way the
    heap is as the operation left it, and the run stays in the store under
    its identifier, unfinished and with an empty log. *)
Theorem operation_error_at_the_api
  (fuel : nat) (P : Platform) (w : World) (gid : string) (graph : Graph)
  (cfg : NodeConfig) (f : ToolFunc) (st : loc) (h1 : Heap) (e : exn) :
  graph_store w !! gid = Some graph ->
  nodes graph !! start_node graph = Some cfg ->
  tool_registry w !! tool cfg = Some (PyCallable f) ->
  f (heap w) st = ToolRaises h1 e ->
  iteration (states (heap w) st) < 20 ->
  (0 < fuel)%nat ->
  exists w',
    Api.run_graph fuel P w gid st
      = Some (w', match e with
                  | KeyError _ => HTTPException 404 e
                  | _ => Unhandled e
                  end) /\
    heap w' = h1 /\
    RunStore.get w' (uuid4 P (uuid_draws w)) = Ok (new_run P w gid graph st).
Proof.
  intros Hg Hn Ht Hf Hlt Hfuel. destruct fuel as [|fuel]; [lia|].
  unfold Api.run_graph. rewrite (run_graph_known _ _ _ _ _ _ _ Hg).
  rewrite (run_loop_step _ _ _ _ _ _ (start_node graph)) by reflexivity.
  unfold loop_body. simpl.
  destruct (Z.geb_spec (iteration (states (heap w) st)) 20); [lia|].
  rewrite Hn. unfold ToolRegistry.get. simpl. rewrite Ht. simpl. rewrite Hf.
  eexists. split; [destruct e; reflexivity|]. split; [reflexivity|].
  unfold RunStore.get. simpl. rewrite lookup_insert_eq. reflexivity.
Qed.

Lemma operation_error_at_the_api_witness :
  exists w',
    Api.run_graph 1 example_platform
      (example_world (graphs_of (single_node_graph "g" dangling_node))
         {[ "keep" := PyCallable failing_lookup ]}) "g" 0
    = Some (w', HTTPException 404 (KeyError "line")).
Proof.
  destruct (operation_error_at_the_api 1 example_platform
              (example_world (graphs_of (single_node_graph "g" dangling_node))
                 {[ "keep" := PyCallable failing_lookup ]})
              "g" (single_node_graph "g" dangling_node) dangling_node
              failing_lookup 0 blank_heap (KeyError "line"))
    as (w' & Hrun & _); try reflexivity.
  - lia.
  - exists w'. exact Hrun.
Defined.

(** ** The WebSocket session *)

Lemma run_graph_guard fuel P self w gid graph st :
  graph_store w !! gid = Some graph ->
  max_iterations self <= iteration (states (heap w) st) ->
  run_graph (S fuel) P self w gid st =
    Some (RunStore.update (world_with_run w (new_run P w gid graph st))
            (set_finished (new_run P w gid graph st)),
          Ok (set_finished (new_run P w gid graph st))).
Proof.
  intros Hg Hge. rewrite (run_graph_known _ _ _ _ _ _ _ Hg).
  rewrite (run_loop_step _ _ _ _ _ _ (start_node graph)) by reflexivity.
  rewrite loop_body_guard by exact Hge. reflexivity.
Qed.

(** One message in a session that has reached the bound. *)
Lemma websocket_turn_at_the_bound T fuel P w it message :
  code_review_ready T w ->
  init_sets_iteration P ->
  20 <= it ->
  (0 < fuel)%nat ->
  match websocket_turn fuel P w it message with
  | Some (WsSend w' it' reply) =>
      it' = it /\ code_review_ready T w' /\ idle_reply it reply
  | Some (WsRaise _ _) => True
  | None => False
  end.
Proof.
  intros Hready Hinit Hge Hfuel. destruct fuel as [|fuel]; [lia|].
  unfold websocket_turn.
  destruct message as [| | | | |xs|data|o]; try exact I.
  destruct (negb (data_truthy (default DNone (dict_get data "code")))).
  { split; [reflexivity|]. split; [exact Hready|]. left. reflexivity. }
  destruct (CodeReviewState_init P (heap w) _) as [[h1 s1]|e] eqn:Hc;
    [|exact I].
  assert (Hit : iteration (states h1 s1) = it).
  { eapply Hinit; [exact Hc | reflexivity]. }
  destruct Hready as (Hg & Htools).
  assert (Hbound : max_iterations default_engine
                   <= iteration (states (heap (with_heap w h1)) s1)).
  { simpl. rewrite Hit. exact Hge. }
  rewrite (run_graph_guard fuel P default_engine (with_heap w h1)
             "code_review_default" code_review_default s1 Hg Hbound).
  simpl. split; [exact Hit|]. split; [split; assumption|].
  right. unfold ws_response. simpl. rewrite Hit. split; reflexivity.
Qed.

(** X17: a WebSocket session whose iteration counter has reached the
    engine's bound of 20 never runs the workflow again.  Whatever messages
    follow, the counter stays where it is, and every reply is either the
    "No code provided" error or reports that counter and the start node
    [extract] as the node the run stands on. *)
Theorem websocket_session_stuck_at_the_bound
  (T : CodeReviewTools) (fuel : nat) (P : Platform) (it : Z)
  (messages : list data) (w : World) :
  code_review_ready T w ->
  init_sets_iteration P ->
  20 <= it ->
  (0 < fuel)%nat ->
  exists w' replies exit,
    websocket_endpoint fuel P w it messages = Some (w', it, replies, exit) /\
    Forall (idle_reply it) replies.
Proof.
  intros Hready Hinit Hge Hfuel. revert w Hready.
  induction messages as [|message rest IH]; intros w Hready.
  - exists w, [], None. split; [reflexivity | constructor].
  - cbn [websocket_endpoint].
    pose proof (websocket_turn_at_the_bound T fuel P w it message Hready Hinit
                  Hge Hfuel) as Hturn.
    destruct (websocket_turn fuel P w it message) as [[w1 it1 reply|w1 e]|];
      [| |destruct Hturn].
    + destruct Hturn as (-> & Hready1 & Hidle).
      destruct (IH w1 Hready1) as (w' & replies & exit & Hrest & Hall).
      rewrite Hrest. exists w', (reply :: replies), exit.
      split; [reflexivity|]. constructor; assumption.
    + exists w1, [], (Some e). split; [reflexivity | constructor].
Qed.

Lemma example_init_sets_iteration : init_sets_iteration session_platform.
Proof.
  intros h d h' st z Hc Hd. simpl in Hc. unfold example_init in Hc.
  rewrite Hd in Hc.
  destruct (dict_get d "code") as [[]|]; try discriminate Hc.
  injection Hc as <- <-. reflexivity.
Qed.

Lemma websocket_session_stuck_at_the_bound_witness :
  exists w' replies exit,
    websocket_endpoint 1 session_platform
      (startup example_tools (example_world ∅ ∅)) 20
      [DDict [("code", DStr "x = 1")]; DDict []]
    = Some (w', 20, replies, exit) /\
    Forall (idle_reply 20) replies.
Proof.
  apply (websocket_session_stuck_at_the_bound example_tools 1 session_platform
           20 [DDict [("code", DStr "x = 1")]; DDict []]
           (startup example_tools (example_world ∅ ∅))).
  - apply startup_ready.
  - exact example_init_sets_iteration.
  - lia.
  - lia.
Defined.

(** X18: below the bound, a message that carries code makes the handler run
    the whole workflow once: with the three analyses leaving [iteration]
    alone and [suggest_improvements] adding one, the reply reports the node
    "finished" and the session's iteration counter moves on by one, so a
    session reaches the bound after 20 such messages at the latest. *)
Theorem websocket_turn_runs_the_workflow
  (T : CodeReviewTools) (fuel : nat) (P : Platform) (w : World) (it : Z)
  (data : list (string * data)) (h1 : Heap) (st : loc) :
  code_review_ready T w ->
  keeps_iteration (extract_functions T) ->
  keeps_iteration (check_complexity T) ->
  keeps_iteration (detect_basic_issues T) ->
  increments_iteration (suggest_improvements T) ->
  data_truthy (default DNone (dict_get data "code")) = true ->
  CodeReviewState_init P (heap w)
    [("code", default DNone (dict_get data "code"));
     ("threshold", default (DFloat 0.8) (dict_get data "threshold"));
     ("iteration", DInt it)] = Ok (h1, st) ->
  iteration (states h1 st) = it ->
  it < 20 ->
  (4 <= fuel)%nat ->
  exists w' reply,
    websocket_turn fuel P w it (DDict data) = Some (WsSend w' (it + 1) reply) /\
    dict_get reply "node" = Some (DStr "finished") /\
    dict_get reply "iteration" = Some (DInt (it + 1)) /\
    code_review_ready T w'.
Proof.
  intros Hready Hke Hkc Hkd Hinc Hcode Hc Hit Hlt Hfuel.
  unfold websocket_turn. rewrite Hcode. simpl. rewrite Hc.
  destruct (default_graph_run fuel P T (with_heap w h1) st)
    as (w' & run & Hrun & _ & _ & Hcur & Hit');
    try assumption.
  { simpl. rewrite Hit. exact Hlt. }
  rewrite Hrun. simpl in Hit'. rewrite Hit in Hit'.
  exists w', (ws_response w' run). rewrite Hit'.
  split; [reflexivity|]. unfold ws_response. simpl.
  rewrite Hcur, Hit'. split; [reflexivity|]. split; [reflexivity|].
  eapply code_review_ready_kept; [|exact Hrun]. exact Hready.
Qed.

Lemma websocket_turn_runs_the_workflow_witness :
  exists w' reply,
    websocket_turn 4 session_platform
      (startup example_tools (example_world ∅ ∅)) 3
      (DDict [("code", DStr "x = 1")])
    = Some (WsSend w' 4 reply) /\
    dict_get reply "node" = Some (DStr "finished").
Proof.
  destruct (websocket_turn_runs_the_workflow example_tools 4 session_platform
              (startup example_tools (example_world ∅ ∅)) 3
              [("code", DStr "x = 1")]
              (set_state blank_heap 1 (mkState "x = 1" 0 0 0 0 0%float 0.8%float 3))
              1%nat (startup_ready _ _)
              keep_state_keeps_iteration keep_state_keeps_iteration
              keep_state_keeps_iteration bump_iteration_increments)
    as (w' & reply & Hturn & Hnode & _).
  - reflexivity.
  - reflexivity.
  - reflexivity.
  - lia.
  - lia.
  - exists w', reply. split; assumption.
Defined.

(** ** The final state and the log *)

(** What every body that does not raise preserves holds when the loop ends
    normally. *)
Lemma run_loop_done_invariant P self graph (I : World -> GraphRun -> Prop) :
  (forall w run cur,
     I w run -> current_node run = Some cur -> finished run = false ->
     match loop_body P self graph w run cur with
     | Continue w' run' | Break w' run' => I w' run'
     | Propagate _ _ _ => True
     end) ->
  forall fuel w run w' run',
    I w run ->
    run_loop fuel P self graph w run = Some (Done w' run') ->
    I w' run'.
Proof.
  intros Hbody. induction fuel as [|fuel IH]; intros w run w' run' HI Hr.
  - cbn [run_loop] in Hr.
    destruct (current_node run); [|injection Hr as <- <-; exact HI].
    destruct (finished run); [injection Hr as <- <-; exact HI | discriminate].
  - destruct (current_node run) as [cur|] eqn:Hcur.
    2:{ rewrite run_loop_idle in Hr by (left; exact Hcur).
        injection Hr as <- <-. exact HI. }
    destruct (finished run) eqn:Hfin.
    { rewrite run_loop_idle in Hr by (right; exact Hfin).
      injection Hr as <- <-. exact HI. }
    rewrite (run_loop_step _ _ _ _ _ _ cur) in Hr by assumption.
    specialize (Hbody w run cur HI Hcur Hfin).
    destruct (loop_body P self graph w run cur) as [w1 run1|w1 run1|w1 run1 e];
      [| |discriminate].
    + exact (IH _ _ _ _ Hbody Hr).
    + injection Hr as <- <-. exact Hbody.
Qed.

Lemma log_up_to_date_logged h0 st0 P w run cfg h1 st1 run' :
  log run' = log (logged P w run cfg h1 st1) ->
  state run' = st1 ->
  log_up_to_date h0 st0 (after_node w h1) run'.
Proof.
  intros Hlog Hst. unfold log_up_to_date. rewrite Hlog. simpl.
  rewrite last_snoc. simpl. rewrite Hst. reflexivity.
Qed.

(** X19: in a run that [run_graph] returns, the snapshot of the last log
    entry is the [.dict()] of the final state, so the [final_state] and the
    end of the [log] of a response never disagree; and when the log is empty
    the state is the initial state object in an untouched heap. *)
Theorem last_snapshot_is_final_state
  (fuel : nat) (P : Platform) (self : GraphEngine) (w w' : World)
  (gid : string) (st : loc) (run : GraphRun) :
  run_graph fuel P self w gid st = Some (w', Ok run) ->
  match last (log run) with
  | Some entry => state_snapshot entry = state_dict (heap w') (state run)
  | None => state run = st /\ heap w' = heap w
  end.
Proof.
  intros Hrun.
  destruct (graph_store w !! gid) as [graph|] eqn:Hg.
  2:{ rewrite run_graph_no_graph in Hrun by exact Hg. discriminate. }
  rewrite (run_graph_known _ _ _ _ _ _ _ Hg) in Hrun.
  destruct (run_loop fuel P self graph _ _) as [[w2 run'|w2 run' e]|] eqn:Hloop;
    try discriminate.
  injection Hrun as <- <-.
  apply (run_loop_done_invariant P self graph (log_up_to_date (heap w) st))
    in Hloop; [exact Hloop| |split; reflexivity].
  intros w1 run1 cur Hup _ _.
  pose proof (loop_body_outcome P self graph w1 run1 cur) as Hout.
  destruct (loop_body P self graph w1 run1 cur) as [w3 run3|w3 run3|w3 run3 e];
    [| |exact I].
  - destruct Hout as (cfg & h1 & st1 & n & _ & _ & -> & ->).
    eapply log_up_to_date_logged; reflexivity.
  - destruct Hout as [(_ & -> & ->) | (cfg & h1 & st1 & _ & _ & -> & ->)].
    + exact Hup.
    + eapply log_up_to_date_logged; reflexivity.
Qed.

Lemma last_snapshot_is_final_state_witness :
  match run_graph 3 example_platform (mkEngine 2)
          (loop_world "rec" (PyCallable record_function)) "loop" 0 with
  | Some (w', Ok run) =>
      exists entry,
        last (log run) = Some entry /\
        state_snapshot entry = state_dict (heap w') (state run)
  | _ => False
  end.
Proof.
  destruct (run_graph 3 example_platform (mkEngine 2)
              (loop_world "rec" (PyCallable record_function)) "loop" 0)
    as [[w' [run|e]]|] eqn:Hrun;
    [| vm_compute in Hrun; discriminate Hrun..].
  pose proof (last_snapshot_is_final_state _ _ _ _ _ _ _ _ Hrun) as Hlast.
  destruct (last (log run)) as [entry|] eqn:Hl.
  - exists entry. split; [reflexivity | exact Hlast].
  - exfalso. apply last_None in Hl.
    vm_compute in Hrun. injection Hrun as _ <-. discriminate Hl.
Defined.
